(** * contentful-webhook-listener: the request handler of [index.js]

    A shallow embedding of the Express handler registered with
    [app.all('/')] and of the three functions it chains, [getUserId],
    [getUserName] and [postToSlack], followed by the properties of the
    notification pipeline.

    - JavaScript values are a small inductive type, with the conversions
      the handler relies on (ToString, ToPrimitive, [==], [+], property
      reads, [for ... in]) written out, exceptions included.
    - The module-level variables of line 31 are a record inside the world;
      every function reads and writes them through a state monad, as the
      source does through its closure.
    - A [throw] and a rejected promise are the error branch of that monad.
      An exception thrown by the handler outside its promise chain is the
      error branch of the handler itself.
    - The outside world (the two Contentful endpoints and the Slack
      webhook) is a function from the traffic so far and the outbound call
      to its answer; the traffic and the console are recorded.
    - A request is run to completion before the next one starts: the
      promise chain is awaited in place. *)

From Stdlib Require Import String Ascii List Bool Arith Lia.
From Stdlib Require Import Decimal DecimalString.
Import ListNotations.
Local Open Scope list_scope.
Local Open Scope string_scope.

Set Implicit Arguments.
Set Warnings "-register-all".

(** ** JavaScript values *)

(** The values the handler manipulates: what [JSON.parse] yields for a
    document whose leaves are strings or [null], and [undefined] for a
    property that is not there.  An object is the list of its own
    properties in the order [for ... in] walks them (a list that repeats a
    key stands for no object; no statement depends on it).  Numeric and
    boolean leaves are left out: comparing them with [==] goes through
    IEEE-754 StringToNumber. *)
Inductive value : Type :=
| Undefined
| Null
| Str (s : string)
| Arr (items : list value)
| Obj (props : list (string * value)).

(** What a [throw] or a rejected promise carries: a [TypeError] raised by
    the language itself (its message text is not modelled), or the error
    axios rejects with when a request fails. *)
Inductive error : Type :=
| TypeError
| AxiosError (reason : string).

Inductive result (A : Type) : Type :=
| Ok (a : A)
| Throw (e : error).
Arguments Ok {A} a.
Arguments Throw {A} e.

Definition rbind {A B} (r : result A) (k : A -> result B) : result B :=
  match r with
  | Ok a => k a
  | Throw e => Throw e
  end.

Declare Scope js_scope.
Delimit Scope js_scope with js.
Notation "x <~ r ;;; k" := (rbind r (fun x => k))
  (at level 61, r at next level, right associativity) : js_scope.
Local Open Scope js_scope.

Definition nullish (v : value) : bool :=
  match v with
  | Undefined | Null => true
  | _ => false
  end.

(** Own-property lookup in an object, first binding of the key. *)
Fixpoint assoc (props : list (string * value)) (k : string) : option value :=
  match props with
  | [] => None
  | (k', v) :: rest => if String.eqb k' k then Some v else assoc rest k
  end.

Definition has_own (props : list (string * value)) (k : string) : bool :=
  match assoc props k with
  | Some _ => true
  | None => false
  end.

(** ToString.  An array goes through [Array.prototype.join]: [undefined]
    and [null] elements print as the empty string.  A parsed object has no
    callable [toString] of its own; when it carries a property of that name
    the inherited method is hidden and the conversion throws, otherwise
    [Object.prototype.toString] answers. *)
Fixpoint to_string (v : value) : result string :=
  match v with
  | Undefined => Ok "undefined"
  | Null => Ok "null"
  | Str s => Ok s
  | Arr items =>
      (fix join (l : list value) : result string :=
         match l with
         | [] => Ok ""
         | x :: rest =>
             sx <~ (match x with
                    | Undefined | Null => Ok ""
                    | _ => to_string x
                    end) ;;;
             match rest with
             | [] => Ok sx
             | _ :: _ => sr <~ join rest ;;; Ok (sx ++ "," ++ sr)
             end
         end) items
  | Obj props =>
      if has_own props "toString" then Throw TypeError
      else Ok "[object Object]"
  end.

(** ToPrimitive: identity on primitives, the string conversion on arrays
    and objects (both hints give the same answer on parsed documents). *)
Definition to_primitive (v : value) : result value :=
  match v with
  | Arr _ | Obj _ => s <~ to_string v ;;; Ok (Str s)
  | _ => Ok v
  end.

(** [x == y].  Two object operands compare by reference; the handler only
    compares values that come from different parsed documents (or a value
    with a literal), so two objects are never the same reference. *)
Definition loose_eq (x y : value) : result bool :=
  match x, y with
  | (Undefined | Null), (Undefined | Null) => Ok true
  | (Undefined | Null), _ => Ok false
  | _, (Undefined | Null) => Ok false
  | Str a, Str b => Ok (String.eqb a b)
  | Str a, (Arr _ | Obj _) => b <~ to_string y ;;; Ok (String.eqb a b)
  | (Arr _ | Obj _), Str b => a <~ to_string x ;;; Ok (String.eqb a b)
  | (Arr _ | Obj _), (Arr _ | Obj _) => Ok false
  end.

Definition loose_neq (x y : value) : result bool :=
  b <~ loose_eq x y ;;; Ok (negb b).

(** [x !== undefined]. *)
Definition strict_neq_undefined (x : value) : bool :=
  match x with
  | Undefined => false
  | _ => true
  end.

(** The canonical decimal spelling of an array index. *)
Definition index_key (n : nat) : string :=
  NilEmpty.string_of_uint (Nat.to_uint n).

Definition index_of (len : nat) (k : string) : option nat :=
  find (fun i => String.eqb (index_key i) k) (seq 0 len).

Fixpoint chars (s : string) : list value :=
  match s with
  | EmptyString => []
  | String c rest => Str (String c EmptyString) :: chars rest
  end.

(** The property read [v[k]] and [v.k], for the names the handler reads:
    own properties and indices.  Reading from [undefined] or [null] throws;
    a name that is not there reads as [undefined].  (Names inherited from
    the prototypes, such as [length], are never read by the handler.) *)
Definition prop (v : value) (k : string) : result value :=
  match v with
  | Undefined | Null => Throw TypeError
  | Str s =>
      match index_of (String.length s) k with
      | Some i => Ok (nth i (chars s) Undefined)
      | None => Ok Undefined
      end
  | Arr items =>
      match index_of (List.length items) k with
      | Some i => Ok (nth i items Undefined)
      | None => Ok Undefined
      end
  | Obj props =>
      match assoc props k with
      | Some x => Ok x
      | None => Ok Undefined
      end
  end.

(** The keys [for (var key in v)] walks. *)
Definition own_keys (v : value) : list string :=
  match v with
  | Undefined | Null => []
  | Str s => map index_key (seq 0 (String.length s))
  | Arr items => map index_key (seq 0 (List.length items))
  | Obj props => map fst props
  end.

(** [a + b].  Both operands are made primitive; when one is a string the
    result is the concatenation, otherwise the sum is numeric, and the only
    numbers [undefined] and [null] add up to are [NaN] and [0]. *)
Inductive added : Type :=
| Text (s : string)
| NaN
| Zero.

Definition prim_string (v : value) : string :=
  match v with
  | Undefined => "undefined"
  | Null => "null"
  | Str s => s
  | Arr _ | Obj _ => "[object Object]"
  end.

Definition add (a b : value) : result added :=
  pa <~ to_primitive a ;;;
  pb <~ to_primitive b ;;;
  match pa, pb with
  | Str _, _ | _, Str _ => Ok (Text (prim_string pa ++ prim_string pb))
  | Null, Null => Ok Zero
  | _, _ => Ok NaN
  end.

Definition added_string (x : added) : string :=
  match x with
  | Text s => s
  | NaN => "NaN"
  | Zero => "0"
  end.

(** [s + v] for a string [s]. *)
Definition str_add (s : string) (v : value) : result string :=
  t <~ to_string v ;;; Ok (s ++ t).

(** [v + s] for a string [s]. *)
Definition add_str (v : value) (s : string) : result string :=
  t <~ to_string v ;;; Ok (t ++ s).

(** An absent header or environment variable reads as [undefined]. *)
Definition of_option (o : option string) : value :=
  match o with
  | Some s => Str s
  | None => Undefined
  end.

(** ** Messages, calls and the world *)

(** The object [slackMessageTemplate] holds ([value_] is the key
    [value]). *)
Record field : Type := {
  title : string;
  value_ : value;
  short : bool
}.

Record attachment : Type := {
  fallback : string;
  pretext : string;
  color : string;
  fields : list field
}.

Record message : Type := {
  username : string;
  icon_emoji : string;
  attachments : list attachment
}.

(** The module-level variables of line 31.  Each starts out [undefined]. *)
Record globals : Type := {
  body : value;
  type : value;
  id : value;
  cmaURL : value;
  contentfulDeeplinkURL : value;
  slackMessageTemplate : option message
}.

Definition initial_globals : globals :=
  {| body := Undefined; type := Undefined; id := Undefined;
     cmaURL := Undefined; contentfulDeeplinkURL := Undefined;
     slackMessageTemplate := None |}.

(** [process.env.slackURL] and [process.env.cmaToken]. *)
Record config : Type := {
  slackURL : option string;
  cmaToken : option string
}.

(** The two shapes of request handed to axios: a GET with an Authorization
    header, and the POST of the serialised message. *)
Inductive call : Type :=
| GET (url : string) (authorization : string)
| POST (url : value) (data : message).

(** What comes back: a response with its parsed [data], or a failure
    (transport error or a status outside 2xx), on which axios rejects. *)
Inductive response : Type :=
| Received (data : value)
| Failed (reason : string).

Definition exchange : Type := (call * response)%type.

(** The outside world answers a call knowing all the traffic before it. *)
Definition network : Type := list exchange -> call -> response.

Record world : Type := {
  vars : globals;
  traffic : list exchange;
  console : list error
}.

(** The inbound request, after [bodyParser.json]. *)
Record request : Type := {
  req_body : value;
  x_contentful_webhook_name : option string;
  x_contentful_topic : option string
}.

(** What [response.status(n).send(x)] sends. *)
Inductive payload : Type :=
| Plain (text : string)
| ErrorBody (e : error).

Inductive reply : Type :=
| Reply (status : nat) (sent : payload).

(** ** The monad of the handler *)

(** A computation reads and writes the world and either returns or throws.
    A promise is such a computation that has not run yet: running it awaits
    it, and [Throw] is then its rejection. *)
Definition M (A : Type) : Type := world -> result A * world.
Definition promise (A : Type) : Type := M A.

Definition ret {A} (a : A) : M A := fun w => (Ok a, w).

Definition bind {A B} (m : M A) (k : A -> M B) : M B :=
  fun w =>
    match m w with
    | (Ok a, w') => k a w'
    | (Throw e, w') => (Throw e, w')
    end.

Definition throw {A} (e : error) : M A := fun w => (Throw e, w).

Definition lift {A} (r : result A) : M A := fun w => (r, w).

Notation "x <- m ;; k" := (bind m (fun x => k))
  (at level 61, m at next level, right associativity) : js_scope.
Notation "m ;; k" := (bind m (fun _ => k))
  (at level 61, right associativity) : js_scope.

Definition read : M globals := fun w => (Ok (vars w), w).

Definition write (f : globals -> globals) : M unit :=
  fun w => (Ok tt, {| vars := f (vars w); traffic := traffic w;
                      console := console w |}).

Definition console_log (e : error) : M unit :=
  fun w => (Ok tt, {| vars := vars w; traffic := traffic w;
                      console := (console w ++ [e])%list |}).

(** [p.then(f)] for a callback that returns a plain value (or throws). *)
Definition then_ {A B} (p : promise A) (f : A -> M B) : promise B :=
  bind p f.

(** [p.then(f)] for a callback that returns a promise: the promise is
    awaited in turn. *)
Definition then_p {A B} (p : promise A) (f : A -> M (promise B))
  : promise B :=
  bind p (fun a => bind (f a) (fun q => q)).

(** [p.catch(h)]. *)
Definition catch_ {A} (p : promise A) (h : error -> M A) : promise A :=
  fun w =>
    match p w with
    | (Ok a, w') => (Ok a, w')
    | (Throw e, w') => h e w'
    end.

Definition set_body (v : value) (g : globals) : globals :=
  {| body := v; type := type g; id := id g; cmaURL := cmaURL g;
     contentfulDeeplinkURL := contentfulDeeplinkURL g;
     slackMessageTemplate := slackMessageTemplate g |}.

Definition set_cmaURL (v : value) (g : globals) : globals :=
  {| body := body g; type := type g; id := id g; cmaURL := v;
     contentfulDeeplinkURL := contentfulDeeplinkURL g;
     slackMessageTemplate := slackMessageTemplate g |}.

Definition set_contentfulDeeplinkURL (v : value) (g : globals) : globals :=
  {| body := body g; type := type g; id := id g; cmaURL := cmaURL g;
     contentfulDeeplinkURL := v;
     slackMessageTemplate := slackMessageTemplate g |}.

Definition set_slackMessageTemplate (m : option message) (g : globals)
  : globals :=
  {| body := body g; type := type g; id := id g; cmaURL := cmaURL g;
     contentfulDeeplinkURL := contentfulDeeplinkURL g;
     slackMessageTemplate := m |}.

(** ** The program *)

(** A chain of property reads, [v.k1.k2...]. *)
Fixpoint path (v : value) (ks : list string) : result value :=
  match ks with
  | [] => Ok v
  | k :: rest => x <~ prop v k ;;; path x rest
  end.

(** The computed read [v[key]]: the key is converted to a property name. *)
Definition prop_at (v key : value) : result value :=
  k <~ to_string key ;;; prop v k.

(** [items.filter(keep)]: only an array has the method. *)
Fixpoint filter_list (keep : value -> result bool) (l : list value)
  : result (list value) :=
  match l with
  | [] => Ok []
  | x :: rest =>
      b <~ keep x ;;;
      kept <~ filter_list keep rest ;;;
      Ok (if b then x :: kept else kept)
  end.

Definition array_filter (keep : value -> result bool) (v : value)
  : result (list value) :=
  match v with
  | Arr items => filter_list keep items
  | _ => Throw TypeError
  end.

(** Maps URL fragments to types (lines 34-38).  The keys it is read at
    are ["Entry"] and ["undefined"], never a name of [Object.prototype]. *)
Definition typeUrlMap : value :=
  Obj [("Entry", Str "entries");
       ("Asset", Str "assets");
       ("ContentType", Str "content_types")].

(** The object axios resolves with. *)
Record axios_response : Type := { data : value }.

(** The callback of lines 139-145: the users whose id is [==] to the one
    looked for are filtered out of the collection, and the names of the
    first are joined. *)
Definition pickUserName (userId : value) (response : axios_response)
  : result string :=
  items <~ path (data response) ["items"] ;;;
  users <~ array_filter
             (fun user =>
                uid <~ path user ["sys"; "id"] ;;; loose_eq uid userId)
             items ;;;
  first <~ path (Arr users) ["0"; "firstName"] ;;;
  front <~ add_str first " " ;;;
  last <~ path (Arr users) ["0"; "lastName"] ;;;
  userName <~ str_add front last ;;;
  Ok userName.

Section Handler.

Variable net : network.
Variable cfg : config.

(** [axios(c)]: the call goes out, the answer is recorded, and the promise
    resolves with the response or rejects with the failure. *)
Definition axios (c : call) : promise axios_response :=
  fun w =>
    let r := net (traffic w) c in
    let w' := {| vars := vars w;
                 traffic := (traffic w ++ [(c, r)])%list;
                 console := console w |} in
    match r with
    | Received d => (Ok {| data := d |}, w')
    | Failed reason => (Throw (AxiosError reason), w')
    end.

(** Lines 106-123.  [type] and [id] are the module-level variables: the
    handler's [const id] and [const type] are local to the handler. *)
Definition getUserId : M (promise value) :=
  g <- read ;;
  updatedBy <- lift (path (body g) ["sys"; "updatedBy"]) ;;
  if strict_neq_undefined updatedBy then
    userId <- lift (path (body g) ["sys"; "updatedBy"; "sys"; "id"]) ;;
    ret (ret userId)
  else
    fragment <- lift (prop_at typeUrlMap (type g)) ;;
    base <- lift (add (cmaURL g) fragment) ;;
    url <- lift (str_add (added_string base ++ "/") (id g)) ;;
    authorization <- lift (str_add "Bearer " (of_option (cmaToken cfg))) ;;
    ret (catch_
           (then_ (axios (GET url authorization))
                  (fun response =>
                     lift (path (data response)
                                ["sys"; "updatedBy"; "sys"; "id"])))
           (fun error => throw error)).

(** Lines 131-149. *)
Definition getUserName (userId : value) : M (promise string) :=
  g <- read ;;
  url <- lift (add_str (cmaURL g) "users/") ;;
  authorization <- lift (str_add "Bearer " (of_option (cmaToken cfg))) ;;
  ret (catch_
         (then_ (axios (GET url authorization))
                (fun response => lift (pickUserName userId response)))
         (fun error => throw error)).

(** One turn of the loop of lines 163-169. *)
Definition push_field (key : string) : M unit :=
  g <- read ;;
  match slackMessageTemplate g with
  | Some {| username := u; icon_emoji := i; attachments := a :: others |} =>
      v <- lift (path (body g) ["fields"; key; "en-US"]) ;;
      let pushed :=
        {| fallback := fallback a; pretext := pretext a; color := color a;
           fields := (fields a ++
                      [{| title := "field." ++ key; value_ := v;
                          short := false |}])%list |} in
      write (set_slackMessageTemplate
               (Some {| username := u; icon_emoji := i;
                        attachments := pushed :: others |}))
  | _ => throw TypeError
  end.

Fixpoint for_in (keys : list string) (step : string -> M unit) : M unit :=
  match keys with
  | [] => ret tt
  | key :: rest => step key ;; for_in rest step
  end.

(** Lines 171-172. *)
Definition set_texts (text : string) : M unit :=
  g <- read ;;
  match slackMessageTemplate g with
  | Some {| username := u; icon_emoji := i; attachments := a :: others |} =>
      let written :=
        {| fallback := text; pretext := text; color := color a;
           fields := fields a |} in
      write (set_slackMessageTemplate
               (Some {| username := u; icon_emoji := i;
                        attachments := written :: others |}))
  | _ => throw TypeError
  end.

(** Lines 157-179.  The serialised template is what is posted; a field
    whose value is [undefined] loses its [value] key in the JSON text. *)
Definition postToSlack (userName : string) : M (promise axios_response) :=
  g <- read ;;
  link <- lift (to_string (contentfulDeeplinkURL g)) ;;
  kind <- lift (x <~ path (body g) ["sys"; "type"] ;;; to_string x) ;;
  let message :=
    "An Entry has just been changed by " ++ userName ++
    ". The full Entry is below in the fields. Here is the link to the entry: <"
    ++ link ++ "|Link to " ++ kind ++ ">" in
  collection <- lift (path (body g) ["fields"]) ;;
  for_in (own_keys collection) push_field ;;
  set_texts message ;;
  g' <- read ;;
  match slackMessageTemplate g' with
  | Some template => ret (axios (POST (of_option (slackURL cfg)) template))
  | None => throw TypeError
  end.

(** Lines 45-49: the body is stored in the module variable and the three
    values are read out of it. *)
Definition extract (request : request) : M (value * value * value) :=
  write (set_body (req_body request)) ;;
  g <- read ;;
  id <- lift (path (body g) ["sys"; "id"]) ;;
  spaceId <- lift (path (body g) ["sys"; "space"; "sys"; "id"]) ;;
  type <- lift (path (body g) ["sys"; "type"]) ;;
  ret (id, spaceId, type).

(** Lines 40-97.  A [Throw] of the whole handler is an exception that
    leaves the callback uncaught; a rejection inside the promise chain ends
    in the [catch] of line 93. *)
Definition handler (request : request) : M reply :=
  extracted <- extract request ;;
  let '(id, spaceId, type) := extracted in
  let webhook_name := of_option (x_contentful_webhook_name request) in
  let webhook_topic := of_option (x_contentful_topic request) in
  different <- lift (loose_neq type (Str "Entry")) ;;
  if different then
    ret (Reply 200 (Plain "I am only posting entries to slack!"))
  else
    space <- lift (to_string spaceId) ;;
    write (set_cmaURL
             (Str ("https://api.contentful.com/spaces/" ++ space ++ "/"))) ;;
    fragment <- lift (x <~ prop_at typeUrlMap type ;;; to_string x) ;;
    entity <- lift (to_string id) ;;
    write (set_contentfulDeeplinkURL
             (Str ("https://app.contentful.com/spaces/" ++ space ++ "/"
                   ++ fragment ++ "/" ++ entity))) ;;
    name <- lift (to_string webhook_name) ;;
    write (set_slackMessageTemplate
             (Some {| username := "Webhook: " ++ name;
                      icon_emoji := ":contentful:";
                      attachments :=
                        [{| fallback := ""; pretext := "";
                            color := "#000000";
                            fields :=
                              [{| title := "Action applied to Entry";
                                  value_ := webhook_topic;
                                  short := false |}] |}] |})) ;;
    userId <- getUserId ;;
    catch_
      (then_ (then_p (then_p userId getUserName) postToSlack)
             (fun _ => ret (Reply 200 (Plain "Slack post successful!"))))
      (fun error =>
         console_log error ;;
         ret (Reply 500 (ErrorBody error))).

(** Requests handled one after the other, each run to completion. *)
Fixpoint serve (requests : list request) (w : world)
  : list (result reply) * world :=
  match requests with
  | [] => ([], w)
  | request :: rest =>
      let '(r, w') := handler request w in
      let '(rs, w'') := serve rest w' in
      (r :: rs, w'')
  end.

End Handler.

Definition initial_world : world :=
  {| vars := initial_globals; traffic := []; console := [] |}.

(** ** Vocabulary of the statements *)

(** A path read out of a document and converted to a string. *)
Definition read_string (v : value) (ks : list string) : result string :=
  x <~ path v ks ;;; to_string x.

(** The body is the notification of an Entry: its type reads ["Entry"],
    its id reads [eid] and its space id reads [sid]. *)
Record entry_of (b : value) (sid eid : string) : Prop := {
  entry_id : read_string b ["sys"; "id"] = Ok eid;
  entry_space : read_string b ["sys"; "space"; "sys"; "id"] = Ok sid;
  entry_type : read_string b ["sys"; "type"] = Ok "Entry"
}.

Definition header (o : option string) : string :=
  prim_string (of_option o).

Definition summary (request : request) : field :=
  {| title := "Action applied to Entry";
     value_ := of_option (x_contentful_topic request);
     short := false |}.

(** The template of lines 66-81. *)
Definition fresh_template (request : request) : message :=
  {| username := "Webhook: " ++ header (x_contentful_webhook_name request);
     icon_emoji := ":contentful:";
     attachments := [{| fallback := ""; pretext := ""; color := "#000000";
                        fields := [summary request] |}] |}.

Definition api_base (sid : string) : string :=
  "https://api.contentful.com/spaces/" ++ sid ++ "/".

Definition deeplink (sid eid : string) : string :=
  "https://app.contentful.com/spaces/" ++ sid ++ "/entries/" ++ eid.

(** The module variables once lines 45-81 have run for an Entry. *)
Definition prepared_vars (request : request) (sid eid : string) (g : globals)
  : globals :=
  {| body := req_body request; type := type g; id := id g;
     cmaURL := Str (api_base sid);
     contentfulDeeplinkURL := Str (deeplink sid eid);
     slackMessageTemplate := Some (fresh_template request) |}.

Definition prepared (request : request) (sid eid : string) (w : world)
  : world :=
  {| vars := prepared_vars request sid eid (vars w);
     traffic := traffic w; console := console w |}.

(** The world after the handler has only stored the body. *)
Definition touched (v : value) (w : world) : world :=
  {| vars := set_body v (vars w); traffic := traffic w;
     console := console w |}.

(** The world with some more traffic, and with one more console line. *)
Definition extend (w : world) (new : list exchange) : world :=
  {| vars := vars w; traffic := (traffic w ++ new)%list;
     console := console w |}.

Definition logged (w : world) (e : error) : world :=
  {| vars := vars w; traffic := traffic w;
     console := (console w ++ [e])%list |}.

(** Lines 88-96, the promise chain and its two endings. *)
Definition pipeline (net : network) (cfg : config) : M reply :=
  userId <- getUserId net cfg ;;
  catch_
    (then_ (then_p (then_p userId (getUserName net cfg)) (postToSlack net cfg))
           (fun _ => ret (Reply 200 (Plain "Slack post successful!"))))
    (fun error => console_log error ;; ret (Reply 500 (ErrorBody error))).

(** The text of line 160 for an Entry. *)
Definition announcement (displayName sid eid : string) : string :=
  "An Entry has just been changed by " ++ displayName ++
  ". The full Entry is below in the fields. Here is the link to the entry: <"
  ++ deeplink sid eid ++ "|Link to Entry>".

(** The value of key [k] under locale en-US, [undefined] when it cannot
    be read. *)
Definition locale_value (collection : value) (k : string) : value :=
  match path collection [k; "en-US"] with
  | Ok v => v
  | Throw _ => Undefined
  end.

Definition entry_field (collection : value) (k : string) : field :=
  {| title := "field." ++ k; value_ := locale_value collection k;
     short := false |}.

(** The message the pipeline is to deliver for a request. *)
Definition composed (request : request) (sid eid displayName : string)
  (collection : value) : message :=
  {| username := "Webhook: " ++ header (x_contentful_webhook_name request);
     icon_emoji := ":contentful:";
     attachments :=
       [{| fallback := announcement displayName sid eid;
           pretext := announcement displayName sid eid;
           color := "#000000";
           fields := summary request
                     :: map (entry_field collection) (own_keys collection)
        |}] |}.

(** Kinds of exchange on the wire. *)
Definition is_get (x : exchange) : bool :=
  match fst x with
  | GET _ _ => true
  | POST _ _ => false
  end.

Definition succeeded (x : exchange) : bool :=
  match snd x with
  | Received _ => true
  | Failed _ => false
  end.

(** A Slack message counts as delivered when its POST was answered. *)
Definition delivered (x : exchange) : bool :=
  negb (is_get x) && succeeded x.

Definition deliveries (l : list exchange) : nat :=
  List.length (filter delivered l).

(** How the outcome of a computation relates to the traffic it caused:
    on success every exchange was answered; on failure either every
    exchange was answered (the failure is the program's own) or the last
    exchange failed and its reason is the error. *)
Definition orderly {A} (r : result A) (new : list exchange) : Prop :=
  match r with
  | Ok _ => forallb succeeded new = true
  | Throw e =>
      forallb succeeded new = true \/
      exists before c reason,
        new = (before ++ [(c, Failed reason)])%list /\
        forallb succeeded before = true /\
        e = AxiosError reason
  end.

(** A computation that leaves the world alone. *)
Definition silent {A} (m : M A) : Prop :=
  forall w, snd (m w) = w.

(** A computation that only looks things up: module variables and console
    are left alone, and all traffic is GET requests, in good order. *)
Definition lookup {A} (m : M A) : Prop :=
  forall w, exists new,
    snd (m w) = extend w new /\
    forallb is_get new = true /\
    orderly (fst (m w)) new.

(** The module variables as they are when the server starts, in a world
    that keeps its traffic and console. *)
Definition fresh (w : world) : world :=
  {| vars := initial_globals; traffic := traffic w; console := console w |}.

(** The object a body has at a path, [undefined] when the read throws. *)
Definition at_path (v : value) (ks : list string) : value :=
  match path v ks with
  | Ok x => x
  | Throw _ => Undefined
  end.

(** One of the objects the handler reads through is absent or [null]. *)
Definition lacks_object (b : value) : bool :=
  nullish (at_path b ["sys"]) ||
  nullish (at_path b ["sys"; "space"]) ||
  nullish (at_path b ["sys"; "space"; "sys"]).

(** A computation that sends nothing and prints nothing, and leaves the
    module variables [type] and [id] as they are. *)
Definition quiet {A} (m : M A) : Prop :=
  forall w,
    traffic (snd (m w)) = traffic w /\
    console (snd (m w)) = console w /\
    type (vars (snd (m w))) = type (vars w) /\
    id (vars (snd (m w))) = id (vars w).

(** A computation that never assigns the module variables [type], [id]. *)
Definition keeps {A} (m : M A) : Prop :=
  forall w,
    type (vars (snd (m w))) = type (vars w) /\
    id (vars (snd (m w))) = id (vars w).


(** The id a user document carries, when it is a string. *)
Definition id_of (user : value) : option string :=
  match path user ["sys"; "id"] with
  | Ok (Str s) => Some s
  | _ => None
  end.

Definition has_id (user : value) : Prop := id_of user <> None.

Definition id_is (uid : string) (user : value) : bool :=
  match id_of user with
  | Some s => String.eqb s uid
  | None => false
  end.

(** The Authorization header of both lookups. *)
Definition bearer (cfg : config) : string :=
  "Bearer " ++ header (cmaToken cfg).

(** Every key of the list has a value under which en-US can be read,
    that is, no such value is [null]. *)
Definition readable (collection : value) (keys : list string) : bool :=
  forallb (fun k => match path collection [k; "en-US"] with
                    | Ok _ => true
                    | Throw _ => false
                    end) keys.

(** The [fields] object of a request. *)
Definition collection_of (request : request) : value :=
  at_path (req_body request) ["fields"].

(** The template with more fields pushed on its first attachment. *)
Definition pushed (u i : string) (a : attachment) (others : list attachment)
  (extra : list field) : message :=
  {| username := u; icon_emoji := i;
     attachments :=
       {| fallback := fallback a; pretext := pretext a; color := color a;
          fields := (fields a ++ extra)%list |} :: others |}.

Definition with_template (m : message) (w : world) : world :=
  {| vars := set_slackMessageTemplate (Some m) (vars w);
     traffic := traffic w; console := console w |}.

(** The last step of the chain, with the two endings of lines 91-96. *)
Definition delivery (net : network) (cfg : config) (displayName : string)
  : M reply :=
  catch_
    (then_ (q <- postToSlack net cfg displayName ;; q)
           (fun _ => ret (Reply 200 (Plain "Slack post successful!"))))
    (fun error => console_log error ;; ret (Reply 500 (ErrorBody error))).

(** What a run shows to the outside: the reply (or the uncaught
    exception), the traffic and the console. *)
Definition observe (run : result reply * world)
  : result reply * list exchange * list error :=
  (fst run, traffic (snd run), console (snd run)).

(** The two lookups, awaited: the steps the specification calls
    resolveUserId and resolveUserName. *)
Definition resolveUserId (net : network) (cfg : config) : M value :=
  q <- getUserId net cfg ;; q.

Definition resolveUserName (net : network) (cfg : config) (userId : value)
  : M string :=
  q <- getUserName net cfg userId ;; q.

(** ** A sample space

    One space [S1] with one entry [E1], two users, and a Slack webhook:
    the requests and networks the statements below are tried on. *)

Definition sample_fields : value :=
  Obj [("title", Obj [("en-US", Str "Hello")]);
       ("body", Obj [("en-US", Str "World")])].

Definition sample_space : value :=
  Obj [("sys", Obj [("id", Str "S1")])].

Definition sample_updater : value :=
  Obj [("sys", Obj [("id", Str "U1")])].

(** An auto-save through the management API: the updater is in the body. *)
Definition saved_body : value :=
  Obj [("sys", Obj [("id", Str "E1"); ("type", Str "Entry");
                    ("space", sample_space);
                    ("updatedBy", sample_updater)]);
       ("fields", sample_fields)].

(** A publish: no updater in the body. *)
Definition published_body : value :=
  Obj [("sys", Obj [("id", Str "E1"); ("type", Str "Entry");
                    ("space", sample_space)]);
       ("fields", sample_fields)].

Definition asset_body : value :=
  Obj [("sys", Obj [("id", Str "A1"); ("type", Str "Asset");
                    ("space", sample_space)]);
       ("fields", Obj [])].

(** An Entry notification without [sys.id]. *)
Definition idless_body : value :=
  Obj [("sys", Obj [("type", Str "Entry");
                    ("space", sample_space);
                    ("updatedBy", sample_updater)]);
       ("fields", sample_fields)].

(** A notification without [sys.type]. *)
Definition typeless_body : value :=
  Obj [("sys", Obj [("id", Str "E1"); ("space", sample_space)]);
       ("fields", sample_fields)].

Definition notify (b : value) (topic : string) : request :=
  {| req_body := b;
     x_contentful_webhook_name := Some "hook";
     x_contentful_topic := Some topic |}.

Definition ada : value :=
  Obj [("sys", Obj [("id", Str "U1")]);
       ("firstName", Str "Ada"); ("lastName", Str "Lovelace")].

Definition grace : value :=
  Obj [("sys", Obj [("id", Str "U0")]);
       ("firstName", Str "Grace"); ("lastName", Str "Hopper")].

Definition sample_users : value := Obj [("items", Arr [grace; ada])].

Definition strangers : value := Obj [("items", Arr [grace])].

Definition not_found : string := "Request failed with status code 404".

(** The management API of the sample space, with the given users
    collection, and a Slack webhook that answers or not. *)
Definition sample_api (users : value) (slack_up : bool) : network :=
  fun _ c =>
    match c with
    | GET url _ =>
        if String.eqb url "https://api.contentful.com/spaces/S1/users/"
        then Received users
        else if String.eqb url
                  "https://api.contentful.com/spaces/S1/entries/E1"
        then Received saved_body
        else Failed not_found
    | POST _ _ => if slack_up then Received (Str "ok")
                  else Failed "Network Error"
    end.

Definition sample_net : network := sample_api sample_users true.

Definition sample_cfg : config :=
  {| slackURL := Some "https://hooks.slack.com/services/T/B/X";
     cmaToken := Some "tok" |}.

(** The messages posted in some traffic, oldest first. *)
Fixpoint posted (l : list exchange) : list message :=
  match l with
  | [] => []
  | (POST _ m, _) :: rest => m :: posted rest
  | (GET _ _, _) :: rest => posted rest
  end.

(** ** Vocabulary of the further properties *)

(** The console line a reply stands for: the error of a 500, nothing
    otherwise. *)
Definition logged_error (r : result reply) : list error :=
  match r with
  | Ok (Reply _ (ErrorBody e)) => [e]
  | _ => []
  end.

(** A lookup as the handler may issue it in module state [g]: a GET with
    the bearer token, to a URL that extends [cmaURL] when that is a
    string. *)
Definition allowed (g : globals) (cfg : config) (c : call) : Prop :=
  exists url,
    c = GET url (bearer cfg) /\
    forall base, cmaURL g = Str base -> exists rest, url = base ++ rest.

(** A computation that, run in module state [g], leaves the variables and
    the console alone and issues at most [n] calls, all of them allowed
    lookups. *)
Definition fetches (g : globals) (cfg : config) (n : nat) {A} (m : M A)
  : Prop :=
  forall w, vars w = g ->
    exists new,
      snd (m w) = extend w new /\
      List.length new <= n /\
      Forall (fun x => allowed g cfg (fst x)) new.

(** The shape of a run of the chain from world [w]: at most two allowed
    lookups, then at most one POST to the Slack URL, and on the console
    the error that was replied, if any. *)
Definition tidy (g : globals) (cfg : config) (w : world)
  (run : result reply * world) : Prop :=
  exists gets posts,
    traffic (snd run) = (traffic w ++ gets ++ posts)%list /\
    List.length gets <= 2 /\
    Forall (fun x => allowed g cfg (fst x)) gets /\
    (posts = [] \/
     exists m resp, posts = [(POST (of_option (slackURL cfg)) m, resp)]) /\
    console (snd run) = (console w ++ logged_error (fst run))%list.

(** The two texts of a 200 reply. *)
Definition skipped : reply :=
  Reply 200 (Plain "I am only posting entries to slack!").

Definition posted_ok : reply :=
  Reply 200 (Plain "Slack post successful!").

(** A users document with no [items], and one whose first item is
    [null]. *)
Definition no_items : value := Obj [("message", Str "Forbidden")].

Definition holed_users : value := Obj [("items", Arr [Null; ada])].

(** An Entry notification whose updater is [null], and one without
    [fields]. *)
Definition nulled_body : value :=
  Obj [("sys", Obj [("id", Str "E1"); ("type", Str "Entry");
                    ("space", sample_space);
                    ("updatedBy", Null)]);
       ("fields", sample_fields)].


(** [Array.prototype.join] on its own: what [to_string] does to the
    items of an array. *)
Definition element_string (x : value) : result string :=
  match x with
  | Undefined | Null => Ok ""
  | _ => to_string x
  end.

Fixpoint join (l : list value) : result string :=
  match l with
  | [] => Ok ""
  | x :: rest =>
      sx <~ element_string x ;;;
      match rest with
      | [] => Ok sx
      | _ :: _ => sr <~ join rest ;;; Ok (sx ++ "," ++ sr)
      end
  end.

(** The test of line 141 for one user. *)
Definition same_user (userId user : value) : result bool :=
  uid <~ path user ["sys"; "id"] ;;; loose_eq uid userId.

(** The updater of a body can be used by [getUserId]: it is absent, or
    its [sys] is there to read [id] from. *)
Definition updater_usable (b : value) : bool :=
  if strict_neq_undefined (at_path b ["sys"; "updatedBy"])
  then negb (nullish (at_path b ["sys"; "updatedBy"; "sys"]))
  else true.

(** The last step of the chain, awaited: compose and deliver. *)
Definition postMessage (net : network) (cfg : config) (displayName : string)
  : M axios_response :=
  q <- postToSlack net cfg displayName ;; q.

(** ** Proof tools *)

(** Case analysis on every scrutinee of the goal, or of a hypothesis. *)
Ltac run_cases :=
  repeat (match goal with
          | |- context [match ?x with _ => _ end] => destruct x eqn:?
          end; cbn [fst snd]).

Ltac inspect H :=
  repeat match type of H with
         | context [match ?x with _ => _ end] => destruct x eqn:?
         end.

(** Lemmas on what a computation leaves of the world. *)
Create HintDb footprint.

(** * Properties *)

Unset Implicit Arguments.

(** ** Conversions *)

Lemma append_assoc (a b c : string) : (a ++ b) ++ c = a ++ (b ++ c).
Proof. induction a as [|ch a IH]; cbn; [reflexivity | now rewrite IH]. Qed.

Lemma prop_throws v k e : prop v k = Throw e -> e = TypeError.
Proof.
  destruct v; cbn; try congruence.
  - destruct (index_of _ _); discriminate.
  - destruct (index_of _ _); discriminate.
  - destruct (assoc _ _); discriminate.
Qed.

Lemma path_throws ks : forall v e, path v ks = Throw e -> e = TypeError.
Proof.
  induction ks as [|k ks IH]; cbn; intros v e H; [discriminate|].
  destruct (prop v k) as [x|e'] eqn:Hp; cbn in H.
  - eauto.
  - apply prop_throws in Hp. congruence.
Qed.

Lemma prop_reads v k : nullish v = false -> exists x, prop v k = Ok x.
Proof.
  destruct v; cbn; try discriminate; intros _.
  - destruct (index_of _ _); eauto.
  - destruct (index_of _ _); eauto.
  - destruct (assoc _ _); eauto.
Qed.

Lemma prop_nullish v k : nullish v = true -> prop v k = Throw TypeError.
Proof. destruct v; cbn; congruence. Qed.

Lemma loose_eq_Entry t :
  loose_eq t (Str "Entry") =
  (s <~ to_string t ;;; Ok (String.eqb s "Entry")).
Proof. destruct t; reflexivity. Qed.

Lemma read_string_inv b ks s :
  read_string b ks = Ok s ->
  exists v, path b ks = Ok v /\ to_string v = Ok s.
Proof.
  unfold read_string.
  destruct (path b ks) as [v|e]; cbn; [eauto | discriminate].
Qed.

Lemma to_string_of_option o : to_string (of_option o) = Ok (header o).
Proof. destruct o; reflexivity. Qed.

Lemma path_app ks1 : forall v ks2 x,
  path v ks1 = Ok x -> path v (ks1 ++ ks2)%list = path x ks2.
Proof.
  induction ks1 as [|k ks1 IH]; cbn; intros v ks2 x H.
  - congruence.
  - destruct (prop v k) as [y|e]; cbn in *; [eauto | discriminate].
Qed.

(** ** Worlds *)

Lemma extend_nil w : extend w [] = w.
Proof. destruct w; unfold extend; cbn. now rewrite app_nil_r. Qed.

Lemma extend_extend w a b :
  extend (extend w a) b = extend w (a ++ b)%list.
Proof. unfold extend; cbn. now rewrite app_assoc. Qed.

(** ** The type filter *)

Lemma nullish_at_path b k ks :
  nullish (at_path b (ks ++ [k])%list) = false ->
  exists x, path b (ks ++ [k])%list = Ok x /\ nullish x = false.
Proof.
  unfold at_path. destruct (path b _) as [x|e]; cbn; [eauto | discriminate].
Qed.

Lemma extract_reads request w :
  lacks_object (req_body request) = false ->
  extract request w =
  (Ok (at_path (req_body request) ["sys"; "id"],
       at_path (req_body request) ["sys"; "space"; "sys"; "id"],
       at_path (req_body request) ["sys"; "type"]),
   touched (req_body request) w).
Proof.
  unfold lacks_object. intros H.
  apply orb_false_elim in H as [H H3].
  apply orb_false_elim in H as [H1 H2].
  apply (nullish_at_path _ "sys" []) in H1 as (sys & Hsys & Nsys).
  apply (nullish_at_path _ "space" ["sys"]) in H2 as (space & Hspace & Nspace).
  apply (nullish_at_path _ "sys" ["sys"; "space"]) in H3 as (ssys & Hssys & Nssys).
  cbn [app] in *.
  destruct (prop_reads sys "id" Nsys) as (i & Hi).
  destruct (prop_reads sys "type" Nsys) as (t & Ht).
  destruct (prop_reads ssys "id" Nssys) as (si & Hsi).
  assert (P1 : path (req_body request) ["sys"; "id"] = Ok i).
  { change (path (req_body request) (["sys"] ++ ["id"])%list = Ok i).
    rewrite (path_app ["sys"] _ ["id"] _ Hsys). cbn. now rewrite Hi. }
  assert (P2 : path (req_body request) ["sys"; "type"] = Ok t).
  { change (path (req_body request) (["sys"] ++ ["type"])%list = Ok t).
    rewrite (path_app ["sys"] _ ["type"] _ Hsys). cbn. now rewrite Ht. }
  assert (P3 : path (req_body request) ["sys"; "space"; "sys"; "id"] = Ok si).
  { change (path (req_body request)
                  (["sys"; "space"; "sys"] ++ ["id"])%list = Ok si).
    rewrite (path_app ["sys"; "space"; "sys"] _ ["id"] _ Hssys). cbn.
    now rewrite Hsi. }
  unfold extract, bind, write, read, lift, ret, at_path.
  cbn [vars body set_body].
  now rewrite P1, P2, P3.
Qed.

Lemma extract_throws request w :
  lacks_object (req_body request) = true ->
  extract request w = (Throw TypeError, touched (req_body request) w).
Proof.
  unfold lacks_object, at_path, extract, bind, write, read, lift, ret.
  cbn [vars body set_body path rbind].
  intros H.
  destruct (prop (req_body request) "sys") as [sys|e] eqn:E1; cbn [rbind] in *.
  2:{ now rewrite (prop_throws _ _ _ E1). }
  destruct (nullish sys) eqn:N1.
  { now rewrite (prop_nullish _ "id" N1). }
  destruct (prop_reads sys "id" N1) as (i & Hi).
  destruct (prop_reads sys "space" N1) as (space & Hspace).
  rewrite Hi, Hspace in *. cbn [rbind orb] in *.
  destruct (nullish space) eqn:N2.
  { now rewrite (prop_nullish _ "sys" N2). }
  destruct (prop_reads space "sys" N2) as (ssys & Hssys).
  rewrite Hssys in *. cbn [rbind orb] in *.
  now rewrite (prop_nullish _ "id" H).
Qed.

(** ** Claims about the type filter and the field extraction *)

(** C1.  A request whose three required objects are there and whose
    [sys.type], read as a string, is not Entry is answered with status 200
    and the informational text; the only trace it leaves is the body stored
    in the module variable: no call went out, nothing was logged, nothing
    else was computed. *)
Theorem type_filter_skips net cfg request w s :
  lacks_object (req_body request) = false ->
  read_string (req_body request) ["sys"; "type"] = Ok s ->
  s <> "Entry" ->
  handler net cfg request w =
  (Ok (Reply 200 (Plain "I am only posting entries to slack!")),
   touched (req_body request) w).
Proof.
  intros Hobj Hs Hne.
  unfold handler, bind at 1.
  rewrite (extract_reads _ _ Hobj).
  unfold read_string, at_path in *.
  destruct (path (req_body request) ["sys"; "type"]) as [t|e];
    cbn [rbind] in Hs; [|discriminate].
  unfold bind, lift, ret, loose_neq.
  rewrite loose_eq_Entry, Hs. cbn [rbind].
  apply String.eqb_neq in Hne. now rewrite Hne.
Qed.

(** C8, as amended.  When [sys], [sys.space] or [sys.space.sys] is absent
    or null the handler throws a TypeError out of the field extraction,
    uncaught: only the body has been stored, no call went out and no reply
    was sent.  When the three objects are there the extraction succeeds,
    and a leaf that is missing is read as [undefined]. *)
Theorem extraction_throws_on_missing_object net cfg request w :
  (lacks_object (req_body request) = true ->
   handler net cfg request w =
   (Throw TypeError, touched (req_body request) w)) /\
  (lacks_object (req_body request) = false ->
   extract request w =
   (Ok (at_path (req_body request) ["sys"; "id"],
        at_path (req_body request) ["sys"; "space"; "sys"; "id"],
        at_path (req_body request) ["sys"; "type"]),
    touched (req_body request) w)).
Proof.
  split; intros H.
  - unfold handler, bind at 1. now rewrite (extract_throws _ _ H).
  - now apply extract_reads.
Qed.

(** ** Footprints of computations *)

Lemma silent_ret {A} (a : A) : silent (ret a).
Proof. now intros w. Qed.

Lemma silent_throw {A} e : silent (@throw A e).
Proof. now intros w. Qed.

Lemma silent_lift {A} (r : result A) : silent (lift r).
Proof. now intros w. Qed.

Lemma silent_read : silent read.
Proof. now intros w. Qed.

Lemma silent_bind {A B} (m : M A) (k : A -> M B) :
  silent m -> (forall a, silent (k a)) -> silent (bind m k).
Proof.
  intros Hm Hk w. unfold bind. specialize (Hm w).
  destruct (m w) as [[a|e] w1]; cbn in *; subst; [apply Hk | reflexivity].
Qed.

#[local] Hint Resolve silent_ret silent_throw silent_lift silent_read
  silent_bind : footprint.

Lemma orderly_nil {A} (r : result A) : orderly r [].
Proof. destruct r; cbn; auto. Qed.

Lemma lookup_silent {A} (m : M A) : silent m -> lookup m.
Proof.
  intros H w. exists []. rewrite extend_nil, H.
  repeat split; auto using orderly_nil.
Qed.

Lemma orderly_app {A B} (a : A) (r : result B) new1 new2 :
  orderly (Ok a) new1 -> orderly r new2 -> orderly r (new1 ++ new2)%list.
Proof.
  cbn. intros H1 H2. destruct r as [b|e]; cbn in *.
  - rewrite forallb_app. now rewrite H1, H2.
  - destruct H2 as [H2|(before & c & reason & -> & Hb & ->)].
    + left. rewrite forallb_app. now rewrite H1, H2.
    + right. exists (new1 ++ before)%list, c, reason.
      rewrite app_assoc, forallb_app, H1, Hb. auto.
Qed.

Lemma lookup_bind_run {A B} (m : M A) (k : A -> M B) :
  lookup m ->
  (forall w a w', m w = (Ok a, w') -> lookup (k a)) ->
  lookup (bind m k).
Proof.
  intros Hm Hk w. unfold bind.
  destruct (Hm w) as (new1 & Hw & Hg & Ho).
  destruct (m w) as [[a|e] w1] eqn:Hrun; cbn [fst snd] in *; subst w1.
  - destruct (Hk _ _ _ Hrun (extend w new1)) as (new2 & Hw2 & Hg2 & Ho2).
    exists (new1 ++ new2)%list.
    rewrite Hw2, extend_extend, forallb_app, Hg, Hg2.
    repeat split; eauto using orderly_app.
  - exists new1. auto.
Qed.

Lemma lookup_bind {A B} (m : M A) (k : A -> M B) :
  lookup m -> (forall a, lookup (k a)) -> lookup (bind m k).
Proof. intros Hm Hk. apply lookup_bind_run; auto. Qed.

Lemma catch_rethrow {A} (p : promise A) w :
  catch_ p (fun error => throw error) w = p w.
Proof. unfold catch_, throw. now destruct (p w) as [[a|e] w']. Qed.

Lemma lookup_catch_rethrow {A} (p : promise A) :
  lookup p -> lookup (catch_ p (fun error => throw error)).
Proof. intros H w. rewrite catch_rethrow. apply H. Qed.

Lemma axios_run net c w :
  axios net c w =
  (match net (traffic w) c with
   | Received d => Ok {| data := d |}
   | Failed reason => Throw (AxiosError reason)
   end,
   extend w [(c, net (traffic w) c)]).
Proof. unfold axios, extend. now destruct (net (traffic w) c). Qed.

Lemma lookup_axios net url authorization :
  lookup (axios net (GET url authorization)).
Proof.
  intros w. rewrite axios_run. eexists. split; [reflexivity|].
  split; [reflexivity|]. cbn [fst].
  destruct (net (traffic w) (GET url authorization)) as [d|reason]; cbn.
  - reflexivity.
  - right. exists [], (GET url authorization), reason. auto.
Qed.

#[local] Hint Resolve lookup_silent lookup_bind lookup_catch_rethrow
  lookup_axios : footprint.

Lemma lookup_vars {A} (m : M A) w :
  lookup m -> vars (snd (m w)) = vars w.
Proof. intros H. destruct (H w) as (new & -> & _). reflexivity. Qed.

Lemma quiet_silent {A} (m : M A) : silent m -> quiet m.
Proof. intros H w. now rewrite H. Qed.

Lemma quiet_bind {A B} (m : M A) (k : A -> M B) :
  quiet m -> (forall a, quiet (k a)) -> quiet (bind m k).
Proof.
  intros Hm Hk w. unfold bind. specialize (Hm w).
  destruct (m w) as [[a|e] w1]; cbn [fst snd] in *; [|exact Hm].
  destruct Hm as (H1 & H2 & H3 & H4).
  destruct (Hk a w1) as (K1 & K2 & K3 & K4).
  repeat split; congruence.
Qed.

Lemma quiet_template m :
  quiet (write (set_slackMessageTemplate m)).
Proof. intros w. cbn. auto. Qed.

#[local] Hint Resolve quiet_silent quiet_bind quiet_template : footprint.

Lemma keeps_quiet {A} (m : M A) : quiet m -> keeps m.
Proof. intros H w. destruct (H w) as (_ & _ & H3 & H4). auto. Qed.

Lemma keeps_lookup {A} (m : M A) : lookup m -> keeps m.
Proof. intros H w. now rewrite (lookup_vars _ w H). Qed.

Lemma keeps_bind_run {A B} (m : M A) (k : A -> M B) :
  keeps m ->
  (forall w a w', m w = (Ok a, w') -> keeps (k a)) ->
  keeps (bind m k).
Proof.
  intros Hm Hk w. unfold bind. specialize (Hm w).
  destruct (m w) as [[a|e] w1] eqn:Hrun; cbn [fst snd] in *; [|exact Hm].
  destruct Hm as (H1 & H2).
  destruct (Hk _ _ _ Hrun w1) as (K1 & K2). split; congruence.
Qed.

Lemma keeps_bind {A B} (m : M A) (k : A -> M B) :
  keeps m -> (forall a, keeps (k a)) -> keeps (bind m k).
Proof. intros Hm Hk. apply keeps_bind_run; auto. Qed.

Lemma keeps_catch {A} (p : promise A) (h : error -> M A) :
  keeps p -> (forall e, keeps (h e)) -> keeps (catch_ p h).
Proof.
  intros Hp Hh w. unfold catch_. specialize (Hp w).
  destruct (p w) as [[a|e] w1]; cbn [fst snd] in *; [exact Hp|].
  destruct Hp as (H1 & H2).
  destruct (Hh e w1) as (K1 & K2). split; congruence.
Qed.

Lemma keeps_axios net c : keeps (axios net c).
Proof. intros w. rewrite axios_run. cbn. auto. Qed.

Lemma keeps_console_log e : keeps (console_log e).
Proof. intros w. cbn. auto. Qed.

Lemma keeps_write f :
  (forall g, type (f g) = type g /\ id (f g) = id g) -> keeps (write f).
Proof. intros H w. cbn. apply H. Qed.

#[local] Hint Resolve keeps_quiet keeps_lookup keeps_bind keeps_catch
  keeps_axios keeps_console_log : footprint.

Lemma lookup_then {A B} (p : promise A) (f : A -> M B) :
  lookup p -> (forall a, lookup (f a)) -> lookup (then_ p f).
Proof. apply lookup_bind. Qed.

Lemma lookup_await {A} (m : M (promise A)) :
  lookup m ->
  (forall w q w', m w = (Ok q, w') -> lookup q) ->
  lookup (bind m (fun q => q)).
Proof. intros Hm Hq. apply lookup_bind_run; auto. Qed.

#[local] Hint Resolve lookup_then : footprint.

(** ** The two lookups *)

Lemma getUserId_silent net cfg : silent (getUserId net cfg).
Proof.
  intros w. unfold getUserId, bind, read, lift, ret. cbn [fst snd].
  run_cases; reflexivity.
Qed.

Lemma getUserId_promise net cfg w q w' :
  getUserId net cfg w = (Ok q, w') -> lookup q.
Proof.
  unfold getUserId, bind, read, lift, ret. intros H.
  inspect H; inversion H; subst; clear H; auto 10 with footprint.
Qed.

Lemma getUserName_silent net cfg userId : silent (getUserName net cfg userId).
Proof.
  intros w. unfold getUserName, bind, read, lift, ret. cbn [fst snd].
  run_cases; reflexivity.
Qed.

Lemma getUserName_promise net cfg userId w q w' :
  getUserName net cfg userId w = (Ok q, w') -> lookup q.
Proof.
  unfold getUserName, bind, read, lift, ret. intros H.
  inspect H; inversion H; subst; clear H; auto 10 with footprint.
Qed.


(** ** Composition and delivery *)

Lemma push_field_quiet key : quiet (push_field key).
Proof.
  unfold push_field. apply quiet_bind; [auto with footprint|].
  intros g. destruct (slackMessageTemplate g) as [[u i [|a others]]|];
    auto 6 with footprint.
Qed.

Lemma for_in_quiet keys : quiet (for_in keys push_field).
Proof.
  induction keys as [|key keys IH]; cbn [for_in].
  - auto with footprint.
  - apply quiet_bind; auto using push_field_quiet.
Qed.

Lemma set_texts_quiet text : quiet (set_texts text).
Proof.
  unfold set_texts. apply quiet_bind; [auto with footprint|].
  intros g. destruct (slackMessageTemplate g) as [[u i [|a others]]|];
    auto 6 with footprint.
Qed.

Lemma postToSlack_quiet net cfg userName : quiet (postToSlack net cfg userName).
Proof.
  unfold postToSlack.
  repeat (apply quiet_bind;
          [auto using for_in_quiet, set_texts_quiet with footprint
          | intros ?]).
  destruct (slackMessageTemplate _); auto with footprint.
Qed.

Lemma postToSlack_promise net cfg userName w q w' :
  postToSlack net cfg userName w = (Ok q, w') ->
  exists m, q = axios net (POST (of_option (slackURL cfg)) m).
Proof.
  unfold postToSlack, bind, read, lift, ret, throw. intros H.
  inspect H; inversion H; subst; eauto.
Qed.

Lemma push_field_run key w u i a others collection :
  slackMessageTemplate (vars w) =
    Some {| username := u; icon_emoji := i; attachments := a :: others |} ->
  path (body (vars w)) ["fields"] = Ok collection ->
  push_field key w =
  match path collection [key; "en-US"] with
  | Ok _ => (Ok tt, with_template
                      (pushed u i a others [entry_field collection key]) w)
  | Throw _ => (Throw TypeError, w)
  end.
Proof.
  intros Ht Hc. unfold push_field, bind, read, lift, write.
  rewrite Ht.
  change ["fields"; key; "en-US"] with (["fields"] ++ [key; "en-US"])%list.
  rewrite (path_app _ _ _ _ Hc).
  unfold entry_field, locale_value.
  destruct (path collection [key; "en-US"]) as [v|e] eqn:Hv.
  - reflexivity.
  - now rewrite (path_throws _ _ _ Hv).
Qed.

Lemma for_in_run keys : forall w u i a others collection,
  slackMessageTemplate (vars w) =
    Some {| username := u; icon_emoji := i; attachments := a :: others |} ->
  path (body (vars w)) ["fields"] = Ok collection ->
  if readable collection keys
  then for_in keys push_field w =
       (Ok tt, with_template
                 (pushed u i a others (map (entry_field collection) keys)) w)
  else fst (for_in keys push_field w) = Throw TypeError.
Proof.
  induction keys as [|key keys IH]; intros w u i a others collection Ht Hc.
  - cbn. unfold ret, with_template, pushed. f_equal.
    destruct w as [g tr co]; cbn in *. f_equal.
    destruct g; cbn in *. subst. unfold set_slackMessageTemplate; cbn.
    rewrite app_nil_r. now destruct a.
  - cbn [for_in readable forallb map]. unfold bind.
    rewrite (push_field_run key _ _ _ _ _ _ Ht Hc).
    destruct (path collection [key; "en-US"]) as [v|e] eqn:Hv;
      cbn [andb]; [|reflexivity].
    specialize (IH (with_template
                      (pushed u i a others [entry_field collection key]) w)
                   u i
                   {| fallback := fallback a; pretext := pretext a;
                      color := color a;
                      fields := (fields a ++ [entry_field collection key])%list
                   |}
                   others collection eq_refl Hc).
    fold (readable collection keys).
    destruct (readable collection keys); [|exact IH].
    rewrite IH. f_equal. unfold with_template, pushed; cbn.
    now rewrite <- app_assoc.
Qed.

Lemma entry_has_fields request sid eid :
  entry_of (req_body request) sid eid ->
  path (req_body request) ["fields"] = Ok (collection_of request).
Proof.
  intros [_ _ Ht]. apply read_string_inv in Ht as (t & Ht & _).
  unfold collection_of, at_path. cbn [path] in *.
  destruct (req_body request); cbn in *; try discriminate.
  - destruct (index_of _ "fields"); reflexivity.
  - destruct (index_of _ "fields"); reflexivity.
  - destruct (assoc _ "fields"); reflexivity.
Qed.

(** What [postToSlack] does in the module state the handler prepared. *)
Lemma postToSlack_prepared net cfg request sid eid g w displayName :
  entry_of (req_body request) sid eid ->
  vars w = prepared_vars request sid eid g ->
  let m := composed request sid eid displayName (collection_of request) in
  if readable (collection_of request) (own_keys (collection_of request))
  then postToSlack net cfg displayName w =
       (Ok (axios net (POST (of_option (slackURL cfg)) m)), with_template m w)
  else fst (postToSlack net cfg displayName w) = Throw TypeError.
Proof.
  intros He Hw m. pose proof (entry_has_fields request _ _ He) as Hc.
  destruct He as [_ _ Ht].
  assert (Hb : body (vars w) = req_body request) by now rewrite Hw.
  assert (Htpl : slackMessageTemplate (vars w) =
                 Some (fresh_template request)) by now rewrite Hw.
  assert (Hl : contentfulDeeplinkURL (vars w) = Str (deeplink sid eid))
    by now rewrite Hw.
  rewrite <- Hb in Hc, Ht.
  assert (Hpost :
    postToSlack net cfg displayName w =
    (for_in (own_keys (collection_of request)) push_field ;;
     set_texts (announcement displayName sid eid) ;;
     g' <- read ;;
     match slackMessageTemplate g' with
     | Some template =>
         ret (axios net (POST (of_option (slackURL cfg)) template))
     | None => throw TypeError
     end) w).
  { unfold postToSlack. unfold bind at 1, read. unfold bind at 1, lift.
    rewrite Hl. cbn [to_string]. unfold bind at 1.
    fold (read_string (body (vars w)) ["sys"; "type"]). rewrite Ht.
    unfold bind at 1. rewrite Hc. reflexivity. }
  rewrite Hpost. clear Hpost.
  pose proof (for_in_run (own_keys (collection_of request)) w _ _ _ _ _ Htpl Hc) as Hrun.
  destruct (readable (collection_of request)
                     (own_keys (collection_of request))).
  - unfold bind at 1. rewrite Hrun.
    unfold bind, set_texts, read, write, ret. cbn. reflexivity.
  - unfold bind at 1.
    destruct (for_in _ _ w) as [[[]|e] w1]; cbn [fst] in *; congruence.
Qed.

(** ** The handler on an Entry *)

Lemma handler_entry net cfg request w sid eid :
  entry_of (req_body request) sid eid ->
  handler net cfg request w = pipeline net cfg (prepared request sid eid w).
Proof.
  intros [Hid Hsp Ht].
  apply read_string_inv in Hid as (idv & Hid & Hids).
  apply read_string_inv in Hsp as (sp & Hsp & Hsps).
  apply read_string_inv in Ht as (t & Ht & Hts).
  unfold handler, extract, bind, write, read, lift, ret.
  cbn [vars body set_body].
  rewrite Hid, Hsp, Ht.
  unfold loose_neq. rewrite loose_eq_Entry, Hts.
  cbn [rbind String.eqb Ascii.eqb Bool.eqb negb].
  rewrite Hsps. unfold prop_at. rewrite Hts. cbn [rbind].
  cbn [typeUrlMap prop assoc String.eqb Ascii.eqb Bool.eqb to_string].
  rewrite Hids, to_string_of_option.
  reflexivity.
Qed.

Lemma pipeline_run net cfg w :
  pipeline net cfg w =
  match getUserId net cfg w with
  | (Throw e, w1) => (Throw e, w1)
  | (Ok p, w1) =>
      match then_p p (getUserName net cfg) w1 with
      | (Ok displayName, w3) => delivery net cfg displayName w3
      | (Throw e, w3) => (Ok (Reply 500 (ErrorBody e)), logged w3 e)
      end
  end.
Proof.
  unfold pipeline. unfold bind at 1.
  destruct (getUserId net cfg w) as [[p|e] w1]; [|reflexivity].
  unfold delivery, catch_, then_. unfold then_p at 1. unfold bind at 1 2.
  destruct (then_p p (getUserName net cfg) w1) as [[name|e] w3]; reflexivity.
Qed.


Lemma delivery_run net cfg displayName w :
  delivery net cfg displayName w =
  match postToSlack net cfg displayName w with
  | (Throw e, w4) => (Ok (Reply 500 (ErrorBody e)), logged w4 e)
  | (Ok q, w4) =>
      match q w4 with
      | (Ok _, w5) => (Ok (Reply 200 (Plain "Slack post successful!")), w5)
      | (Throw e, w5) => (Ok (Reply 500 (ErrorBody e)), logged w5 e)
      end
  end.
Proof.
  unfold delivery, catch_, then_, bind.
  destruct (postToSlack net cfg displayName w) as [[q|e] w4]; [|reflexivity].
  destruct (q w4) as [[a|e] w5]; reflexivity.
Qed.

Lemma deliveries_app a b :
  deliveries (a ++ b)%list = deliveries a + deliveries b.
Proof. unfold deliveries. now rewrite filter_app, length_app. Qed.

Lemma deliveries_gets l : forallb is_get l = true -> deliveries l = 0.
Proof.
  unfold deliveries. induction l as [|x l IH]; cbn; [reflexivity|].
  intros H. apply andb_true_iff in H as [Hx Hl].
  unfold delivered. rewrite Hx. cbn. auto.
Qed.

Lemma then_p_lookup net cfg w p w1 :
  getUserId net cfg w = (Ok p, w1) ->
  lookup (then_p p (getUserName net cfg)).
Proof.
  intros Hp. unfold then_p. apply lookup_bind.
  - eapply getUserId_promise; eauto.
  - intros userId. apply lookup_await.
    + apply lookup_silent, getUserName_silent.
    + apply getUserName_promise.
Qed.

(** ** Claims about failures *)

(** A run of the handler of an Entry that ends in a reply: either the
    200 confirmation with every exchange answered and exactly one message
    delivered, or a 500 with its error logged, nothing delivered and the
    traffic in good order. *)
Lemma replied_run_is_in_order net cfg request w sid eid rep w' :
  entry_of (req_body request) sid eid ->
  handler net cfg request w = (Ok rep, w') ->
  exists new,
    traffic w' = (traffic w ++ new)%list /\
    ((rep = Reply 200 (Plain "Slack post successful!") /\
      console w' = console w /\
      deliveries new = 1 /\
      forallb succeeded new = true)
     \/
     (exists e,
        rep = Reply 500 (ErrorBody e) /\
        console w' = (console w ++ [e])%list /\
        deliveries new = 0 /\
        orderly (Throw e : result reply) new)).
Proof.
  intros He. rewrite (handler_entry net cfg request w sid eid He), pipeline_run.
  set (w1 := prepared request sid eid w).
  pose proof (getUserId_silent net cfg w1) as Hs.
  destruct (getUserId net cfg w1) as [[p|e] w1'] eqn:Hp; [|discriminate].
  cbn [snd] in Hs. subst w1'.
  destruct (then_p_lookup _ _ _ _ _ Hp w1) as (gets & Hw & Hg & Ho).
  destruct (then_p p (getUserName net cfg) w1) as [[name|e] w3];
    cbn [fst snd] in *; subst w3.
  2:{ intros H. inversion H; subst; clear H. exists gets.
      split; [reflexivity|]. right. exists e.
      auto using deliveries_gets. }
  rewrite delivery_run.
  pose proof (postToSlack_quiet net cfg name (extend w1 gets))
    as (Q1 & Q2 & _).
  destruct (postToSlack net cfg name (extend w1 gets)) as [[q|e] w4] eqn:Hq;
    cbn [fst snd] in *.
  2:{ intros H. inversion H; subst; clear H. exists gets. cbn.
      split; [exact Q1|]. right. exists e. rewrite Q2.
      auto using deliveries_gets. }
  apply postToSlack_promise in Hq as (m & ->). rewrite axios_run.
  destruct (net (traffic w4) (POST (of_option (slackURL cfg)) m))
    as [d|reason] eqn:Hnet; intros H; inversion H; subst; clear H.
  - exists (gets ++ [(POST (of_option (slackURL cfg)) m, Received d)])%list.
    cbn [traffic console extend logged]. rewrite Q1, Q2.
    cbn [traffic console extend]. rewrite app_assoc.
    split; [reflexivity|]. left.
    rewrite deliveries_app, (deliveries_gets _ Hg), forallb_app, Ho.
    repeat split; reflexivity.
  - exists (gets ++ [(POST (of_option (slackURL cfg)) m, Failed reason)])%list.
    cbn [traffic console extend logged]. rewrite Q1, Q2.
    cbn [traffic console extend]. rewrite app_assoc.
    split; [reflexivity|]. right. exists (AxiosError reason).
    rewrite deliveries_app, (deliveries_gets _ Hg).
    repeat split; try reflexivity.
    right. exists gets, (POST (of_option (slackURL cfg)) m), reason. auto.
Qed.

(** ** Claims about the user name *)

Lemma has_id_reads user :
  has_id user -> exists s, path user ["sys"; "id"] = Ok (Str s) /\
                           id_of user = Some s.
Proof.
  unfold has_id, id_of.
  destruct (path user ["sys"; "id"]) as [[| |s| |]|e]; try congruence.
  eauto.
Qed.

Lemma filter_list_ids uid items :
  Forall has_id items ->
  filter_list (fun user =>
                 x <~ path user ["sys"; "id"] ;;; loose_eq x (Str uid)) items
  = Ok (filter (id_is uid) items).
Proof.
  induction 1 as [|user items Hu _ IH]; [reflexivity|].
  destruct (has_id_reads user Hu) as (s & Hp & Hi).
  cbn [filter_list filter]. rewrite Hp, IH. unfold id_is. rewrite Hi.
  reflexivity.
Qed.

Lemma find_filter {A} (f : A -> bool) l :
  match find f l with
  | Some u => exists rest, filter f l = u :: rest
  | None => filter f l = []
  end.
Proof.
  induction l as [|x l IH]; cbn; [reflexivity|].
  destruct (f x); eauto.
Qed.

Lemma getUserName_run net cfg userId w base :
  cmaURL (vars w) = Str base ->
  getUserName net cfg userId w =
  (Ok (catch_
         (then_ (axios net (GET (base ++ "users/") (bearer cfg)))
                (fun response => lift (pickUserName userId response)))
         (fun error => throw error)), w).
Proof.
  intros Hb. unfold getUserName, bind, read, lift, ret. rewrite Hb.
  cbn [add_str to_string rbind]. unfold str_add.
  rewrite to_string_of_option. reflexivity.
Qed.

Lemma resolveUserName_run net cfg userId w base :
  cmaURL (vars w) = Str base ->
  resolveUserName net cfg userId w =
  (match net (traffic w) (GET (base ++ "users/") (bearer cfg)) with
   | Received d => pickUserName userId {| data := d |}
   | Failed reason => Throw (AxiosError reason)
   end,
   extend w [(GET (base ++ "users/") (bearer cfg),
              net (traffic w) (GET (base ++ "users/") (bearer cfg)))]).
Proof.
  intros Hb. unfold resolveUserName. unfold bind at 1.
  rewrite (getUserName_run _ _ _ _ _ Hb), catch_rethrow.
  unfold then_, bind, lift. rewrite axios_run.
  now destruct (net (traffic w) _).
Qed.

Lemma first_user u rest k :
  path (Arr (u :: rest)) ["0"; k] = prop u k.
Proof. cbn. now destruct (prop u k). Qed.

(** C3.  When the users collection holds users with string ids and [u] is
    the first of them whose id is the one looked for, the user-name step
    sends its one GET to [users/] and resolves to that user's first name,
    a space, and the last name. *)
Theorem user_name_is_first_and_last net cfg w base d items uid u fn ln :
  cmaURL (vars w) = Str base ->
  net (traffic w) (GET (base ++ "users/") (bearer cfg)) = Received d ->
  path d ["items"] = Ok (Arr items) ->
  Forall has_id items ->
  find (id_is uid) items = Some u ->
  read_string u ["firstName"] = Ok fn ->
  read_string u ["lastName"] = Ok ln ->
  resolveUserName net cfg (Str uid) w =
  (Ok (fn ++ " " ++ ln),
   extend w [(GET (base ++ "users/") (bearer cfg), Received d)]).
Proof.
  intros Hb Hnet Hitems Hids Hfind Hfn Hln.
  rewrite (resolveUserName_run _ _ _ _ _ Hb), Hnet. f_equal.
  unfold pickUserName. cbn [data]. rewrite Hitems. cbn [rbind array_filter].
  rewrite (filter_list_ids uid items Hids). cbn [rbind].
  pose proof (find_filter (id_is uid) items) as Hf. rewrite Hfind in Hf.
  destruct Hf as (rest & ->). rewrite !first_user.
  unfold read_string in Hfn, Hln. cbn [path] in Hfn, Hln.
  destruct (prop u "firstName") as [f|]; cbn [rbind] in *; [|discriminate].
  destruct (prop u "lastName") as [l|]; cbn [rbind] in *; [|discriminate].
  unfold add_str, str_add. rewrite Hfn. cbn [rbind]. rewrite Hln. cbn [rbind].
  now rewrite append_assoc.
Qed.

Lemma resolveUserId_inv net cfg w v w2 :
  resolveUserId net cfg w = (Ok v, w2) ->
  exists p, getUserId net cfg w = (Ok p, w) /\ p w = (Ok v, w2).
Proof.
  unfold resolveUserId, bind. pose proof (getUserId_silent net cfg w) as Hs.
  destruct (getUserId net cfg w) as [[p|e] w1]; [|discriminate].
  cbn [snd] in Hs. subst w1. eauto.
Qed.

Lemma resolveUserId_lookup net cfg : lookup (resolveUserId net cfg).
Proof.
  apply lookup_await.
  - apply lookup_silent, getUserId_silent.
  - apply getUserId_promise.
Qed.

Lemma resolveUserId_vars net cfg w v w2 :
  resolveUserId net cfg w = (Ok v, w2) -> vars w2 = vars w.
Proof.
  intros H. pose proof (lookup_vars _ w (resolveUserId_lookup net cfg)) as Hv.
  now rewrite H in Hv.
Qed.

Lemma pipeline_named net cfg w userId w2 :
  resolveUserId net cfg w = (Ok userId, w2) ->
  pipeline net cfg w =
  match resolveUserName net cfg userId w2 with
  | (Ok displayName, w3) => delivery net cfg displayName w3
  | (Throw e, w3) => (Ok (Reply 500 (ErrorBody e)), logged w3 e)
  end.
Proof.
  intros H. pose proof H as Hv.
  apply resolveUserId_inv in H as (p & Hp & Hrun).
  rewrite pipeline_run, Hp. unfold then_p. unfold bind at 1. rewrite Hrun.
  reflexivity.
Qed.

(** C4.  For an Entry whose user id resolved to [uid]: when the users
    collection holds no user with that id, the user-name step throws a
    TypeError (reading [firstName] of the first element of an empty
    filter result), no further call goes out after the users lookup, the
    error is logged, and the reply is a 500 carrying it. *)
Theorem lookup_miss_is_server_error
  net cfg request w sid eid uid w2 d items :
  entry_of (req_body request) sid eid ->
  resolveUserId net cfg (prepared request sid eid w) = (Ok (Str uid), w2) ->
  net (traffic w2) (GET (api_base sid ++ "users/") (bearer cfg))
    = Received d ->
  path d ["items"] = Ok (Arr items) ->
  Forall has_id items ->
  find (id_is uid) items = None ->
  resolveUserName net cfg (Str uid) w2 =
    (Throw TypeError,
     extend w2 [(GET (api_base sid ++ "users/") (bearer cfg), Received d)])
  /\
  handler net cfg request w =
    (Ok (Reply 500 (ErrorBody TypeError)),
     logged
       (extend w2 [(GET (api_base sid ++ "users/") (bearer cfg), Received d)])
       TypeError).
Proof.
  intros He Hid Hnet Hitems Hids Hfind.
  assert (Hb : cmaURL (vars w2) = Str (api_base sid)).
  { now rewrite (resolveUserId_vars _ _ _ _ _ Hid). }
  assert (Hname :
    resolveUserName net cfg (Str uid) w2 =
    (Throw TypeError,
     extend w2 [(GET (api_base sid ++ "users/") (bearer cfg), Received d)])).
  { rewrite (resolveUserName_run _ _ _ _ _ Hb), Hnet. f_equal.
    unfold pickUserName. cbn [data]. rewrite Hitems. cbn [rbind array_filter].
    rewrite (filter_list_ids uid items Hids). cbn [rbind].
    pose proof (find_filter (id_is uid) items) as Hf. rewrite Hfind in Hf.
    rewrite Hf. reflexivity. }
  split; [exact Hname|].
  rewrite (handler_entry net cfg request w sid eid He).
  rewrite (pipeline_named _ _ _ _ _ Hid), Hname. reflexivity.
Qed.

(** ** Claims about the message *)




Lemma locale_value_object props k locales :
  assoc props k = Some (Obj locales) ->
  locale_value (Obj props) k =
  match assoc locales "en-US" with
  | Some v => v
  | None => Undefined
  end.
Proof.
  intros H. unfold locale_value. cbn. rewrite H. cbn.
  now destruct (assoc locales "en-US").
Qed.


(** ** The user id *)

Lemma append_inv (a x y : string) : a ++ x = a ++ y -> x = y.
Proof.
  induction a as [|ch a IH]; cbn; [auto|]. intros H. inversion H. auto.
Qed.

Lemma resolveUserId_present net cfg w updatedBy userId :
  path (body (vars w)) ["sys"; "updatedBy"] = Ok updatedBy ->
  updatedBy <> Undefined ->
  path (body (vars w)) ["sys"; "updatedBy"; "sys"; "id"] = Ok userId ->
  resolveUserId net cfg w = (Ok userId, w).
Proof.
  intros Hu Hne Hid. unfold resolveUserId, getUserId, bind, read, lift, ret.
  rewrite Hu. destruct updatedBy; try congruence; cbn [strict_neq_undefined];
    now rewrite Hid.
Qed.

Lemma resolveUserId_absent net cfg w base :
  path (body (vars w)) ["sys"; "updatedBy"] = Ok Undefined ->
  type (vars w) = Undefined ->
  id (vars w) = Undefined ->
  cmaURL (vars w) = Str base ->
  let lookup_call := GET (base ++ "undefined/undefined") (bearer cfg) in
  resolveUserId net cfg w =
  (match net (traffic w) lookup_call with
   | Received d => path d ["sys"; "updatedBy"; "sys"; "id"]
   | Failed reason => Throw (AxiosError reason)
   end,
   extend w [(lookup_call, net (traffic w) lookup_call)]).
Proof.
  intros Hu Ht Hi Hb. cbv zeta.
  unfold resolveUserId, getUserId. unfold bind at 1 2 3 4 5 6 7, read, lift, ret.
  rewrite Hu, Ht, Hi, Hb. cbn [strict_neq_undefined].
  unfold str_add. rewrite to_string_of_option. cbn.
  fold (bearer cfg).
  rewrite !append_assoc.
  change ("undefined" ++ "/" ++ "undefined") with "undefined/undefined".
  rewrite catch_rethrow. unfold then_, bind, lift. rewrite axios_run.
  now destruct (net (traffic w) _).
Qed.

(** ** What earlier requests leave behind *)

Lemma keeps_handler net cfg request : keeps (handler net cfg request).
Proof.
  unfold handler. apply keeps_bind.
  { unfold extract. apply keeps_bind.
    - apply keeps_write. intros g. now cbn.
    - intros _. auto 12 with footprint. }
  intros [[i sp] t]. apply keeps_bind; [auto with footprint|].
  intros [|]; [auto with footprint|].
  apply keeps_bind; [auto with footprint|]. intros space.
  apply keeps_bind; [apply keeps_write; intros g; now cbn|]. intros _.
  apply keeps_bind; [auto with footprint|]. intros fragment.
  apply keeps_bind; [auto with footprint|]. intros entity.
  apply keeps_bind; [apply keeps_write; intros g; now cbn|]. intros _.
  apply keeps_bind; [auto with footprint|]. intros name.
  apply keeps_bind; [apply keeps_write; intros g; now cbn|]. intros _.
  apply keeps_bind_run.
  { apply keeps_quiet, quiet_silent, getUserId_silent. }
  intros w p w1 Hp. apply keeps_catch.
  - unfold then_. apply keeps_bind; [|auto with footprint].
    unfold then_p at 1. apply keeps_bind.
    + apply keeps_lookup. eapply then_p_lookup; eauto.
    + intros displayName. apply keeps_bind_run.
      * apply keeps_quiet, postToSlack_quiet.
      * intros w2 q w3 Hq. apply postToSlack_promise in Hq as (m & ->).
        apply keeps_axios.
  - intros e. auto with footprint.
Qed.

Lemma serve_keeps net cfg requests : forall w,
  type (vars (snd (serve net cfg requests w))) = type (vars w) /\
  id (vars (snd (serve net cfg requests w))) = id (vars w).
Proof.
  induction requests as [|request rest IH]; intros w; cbn [serve].
  - auto.
  - destruct (keeps_handler net cfg request w) as (K1 & K2).
    destruct (handler net cfg request w) as [r w1]. cbn [snd] in *.
    destruct (IH w1) as (I1 & I2).
    destruct (serve net cfg rest w1) as [rs w2]. cbn [snd] in *.
    split; congruence.
Qed.

Lemma prepared_fresh request sid eid w :
  type (vars w) = Undefined -> id (vars w) = Undefined ->
  prepared request sid eid (fresh w) = prepared request sid eid w.
Proof.
  intros Ht Hi. unfold prepared, prepared_vars, fresh. cbn.
  now rewrite Ht, Hi.
Qed.

Lemma delivery_prepared net cfg request sid eid g w3 displayName :
  entry_of (req_body request) sid eid ->
  vars w3 = prepared_vars request sid eid g ->
  let m := composed request sid eid displayName (collection_of request) in
  traffic (snd (delivery net cfg displayName w3)) = traffic w3 \/
  exists resp,
    traffic (snd (delivery net cfg displayName w3)) =
    (traffic w3 ++ [(POST (of_option (slackURL cfg)) m, resp)])%list.
Proof.
  intros He Hv m.
  pose proof (postToSlack_prepared net cfg request sid eid g w3
                displayName He Hv) as Hpost.
  cbv zeta in Hpost. fold m in Hpost. rewrite delivery_run.
  destruct (readable (collection_of request)
                     (own_keys (collection_of request))).
  - right. rewrite Hpost, axios_run. cbn [traffic with_template].
    exists (net (traffic w3) (POST (of_option (slackURL cfg)) m)).
    now destruct (net (traffic w3) _).
  - left.
    pose proof (postToSlack_quiet net cfg displayName w3) as (Q1 & _).
    destruct (postToSlack net cfg displayName w3) as [[q|e] w4];
      cbn [fst snd] in *; [discriminate | exact Q1].
Qed.

Lemma gets_hold_no_post l u m resp :
  forallb is_get l = true -> ~ In (POST u m, resp) l.
Proof.
  intros H Hin. rewrite forallb_forall in H. now apply H in Hin.
Qed.

(** Every message the handler of an Entry posts is the one composed from
    that request, whatever the module variables held before. *)
Lemma handler_posts net cfg request w sid eid :
  entry_of (req_body request) sid eid ->
  exists new,
    traffic (snd (handler net cfg request w)) = (traffic w ++ new)%list /\
    forall u m resp,
      In (POST u m, resp) new ->
      exists displayName,
        m = composed request sid eid displayName (collection_of request).
Proof.
  intros He. rewrite (handler_entry net cfg request w sid eid He), pipeline_run.
  set (w1 := prepared request sid eid w).
  pose proof (getUserId_silent net cfg w1) as Hs.
  destruct (getUserId net cfg w1) as [[p|e] w1'] eqn:Hp;
    cbn [snd] in Hs; subst w1'.
  2:{ exists []. cbn. rewrite app_nil_r. split; [reflexivity|]. tauto. }
  destruct (then_p_lookup _ _ _ _ _ Hp w1) as (gets & Hw & Hg & _).
  destruct (then_p p (getUserName net cfg) w1) as [[name|e] w3];
    cbn [fst snd] in *; subst w3.
  2:{ exists gets. split; [reflexivity|]. intros u m resp Hin.
      now apply gets_hold_no_post in Hin. }
  destruct (delivery_prepared net cfg request sid eid (vars w)
              (extend w1 gets) name He eq_refl) as [Ht|(resp & Ht)].
  - exists gets. split; [exact Ht|]. intros u m resp Hin.
    now apply gets_hold_no_post in Hin.
  - eexists. split.
    + rewrite Ht. cbn [traffic extend]. rewrite <- app_assoc. reflexivity.
    + intros u m resp' Hin. apply in_app_or in Hin as [Hin|[Hin|[]]].
      * now apply gets_hold_no_post in Hin.
      * inversion Hin; subst. eauto.
Qed.

(** ** Claims about the module variables *)

(** C9 (what the code does).  After any sequence of requests, the
    entity lookup of an Entry that carries no updater goes to
    [spaces/{spaceId}/undefined/undefined]: the module variables [type] and
    [id] it reads are never assigned.  That URL is never the entries URL of
    the entity. *)
Theorem entity_lookup_reads_unassigned_variables
  net cfg earlier request sid eid :
  entry_of (req_body request) sid eid ->
  path (req_body request) ["sys"; "updatedBy"] = Ok Undefined ->
  let w := prepared request sid eid
             (snd (serve net cfg earlier initial_world)) in
  let url := api_base sid ++ "undefined/undefined" in
  snd (resolveUserId net cfg w) =
    extend w [(GET url (bearer cfg), net (traffic w) (GET url (bearer cfg)))]
  /\ url <> api_base sid ++ "entries/" ++ eid.
Proof.
  intros He Hu w url. split.
  - destruct (serve_keeps net cfg earlier initial_world) as (Kt & Ki).
    subst w url.
    rewrite (resolveUserId_absent net cfg _ (api_base sid));
      [reflexivity | exact Hu | exact Kt | exact Ki | reflexivity].
  - subst url. intros H. apply append_inv in H. discriminate.
Qed.

(** C10.  After any sequence of earlier requests, run one after the other,
    an Entry request is handled exactly as it would be with the module
    variables fresh from start-up (same reply, same traffic, same console),
    and every message it posts is the one composed from this request: the
    topic field, then one field per key of this request's payload. *)
Theorem template_is_fresh_per_request net cfg earlier request sid eid :
  entry_of (req_body request) sid eid ->
  let w := snd (serve net cfg earlier initial_world) in
  observe (handler net cfg request w) =
    observe (handler net cfg request (fresh w)) /\
  exists new,
    traffic (snd (handler net cfg request w)) = (traffic w ++ new)%list /\
    forall u m resp,
      In (POST u m, resp) new ->
      exists displayName,
        m = composed request sid eid displayName (collection_of request).
Proof.
  intros He w. split.
  - destruct (serve_keeps net cfg earlier initial_world) as (Kt & Ki).
    rewrite !(handler_entry net cfg request _ sid eid He).
    now rewrite (prepared_fresh request sid eid w Kt Ki).
  - apply handler_posts, He.
Qed.

(** C2 (evaluation of the code).  On the sample space, the id of a saved
    entry resolves to the updater in the body and leaves the world as it
    was; a published entry, which carries no updater, causes exactly one
    GET, but to [spaces/S1/undefined/undefined] instead of
    [spaces/S1/entries/E1], so that the lookup fails and the request ends
    in a 500 before the user-name lookup. *)
Theorem updater_lookup_on_sample_space :
  resolveUserId sample_net sample_cfg
    (prepared (notify saved_body "entry.save") "S1" "E1" initial_world)
  = (Ok (Str "U1"),
     prepared (notify saved_body "entry.save") "S1" "E1" initial_world)
  /\
  observe (handler sample_net sample_cfg
             (notify published_body "entry.publish") initial_world)
  = (Ok (Reply 500 (ErrorBody (AxiosError not_found))),
     [(GET "https://api.contentful.com/spaces/S1/undefined/undefined"
           "Bearer tok",
       Failed not_found)],
     [AxiosError not_found]).
Proof. split; vm_compute; reflexivity. Qed.

(** C8, as stated, fails: a body without [sys.id] is handled to the end
    (the link then points at [entries/undefined]), and a body without
    [sys.type] gets the 200 of the type filter; neither raises. *)
Lemma missing_leaf_raises_nothing :
  path idless_body ["sys"; "id"] = Ok Undefined /\
  fst (handler sample_net sample_cfg (notify idless_body "entry.save")
         initial_world)
  = Ok (Reply 200 (Plain "Slack post successful!")) /\
  path typeless_body ["sys"; "type"] = Ok Undefined /\
  fst (handler sample_net sample_cfg (notify typeless_body "entry.save")
         initial_world)
  = Ok (Reply 200 (Plain "I am only posting entries to slack!")).
Proof. repeat split; vm_compute; reflexivity. Qed.

(** The type filter compares with [!=]: an array holding the one string
    Entry passes it like the string itself. *)
Example type_filter_coerces_array :
  loose_neq (Arr [Str "Entry"]) (Str "Entry") = Ok false.
Proof. reflexivity. Qed.

(** Two saves in a row: the second message lists its own three fields,
    not the five a reused template would hold. *)
Example fields_do_not_accumulate :
  map (fun m => map (fun a => map title (fields a)) (attachments m))
      (posted (traffic (snd (serve sample_net sample_cfg
                               [notify saved_body "entry.save";
                                notify saved_body "entry.save"]
                               initial_world))))
  = [[["Action applied to Entry"; "field.title"; "field.body"]];
     [["Action applied to Entry"; "field.title"; "field.body"]]].
Proof. vm_compute; reflexivity. Qed.

(** ** The statements on the sample space *)

Lemma type_filter_skips_witness :
  lacks_object asset_body = false /\
  read_string asset_body ["sys"; "type"] = Ok "Asset" /\
  handler sample_net sample_cfg (notify asset_body "asset.publish")
    initial_world
  = (Ok (Reply 200 (Plain "I am only posting entries to slack!")),
     touched asset_body initial_world).
Proof.
  split; [reflexivity|]. split; [reflexivity|].
  apply (type_filter_skips sample_net sample_cfg
           (notify asset_body "asset.publish") initial_world "Asset").
  - reflexivity.
  - reflexivity.
  - discriminate.
Defined.

Lemma extraction_throws_on_missing_object_witness :
  handler sample_net sample_cfg (notify (Obj []) "entry.save") initial_world
  = (Throw TypeError, touched (Obj []) initial_world) /\
  extract (notify idless_body "entry.save") initial_world
  = (Ok (Undefined, Str "S1", Str "Entry"),
     touched idless_body initial_world).
Proof.
  split.
  - apply (extraction_throws_on_missing_object sample_net sample_cfg
             (notify (Obj []) "entry.save") initial_world).
    reflexivity.
  - apply (extraction_throws_on_missing_object sample_net sample_cfg
             (notify idless_body "entry.save") initial_world).
    reflexivity.
Defined.

Lemma user_name_is_first_and_last_witness :
  resolveUserName sample_net sample_cfg (Str "U1")
    (prepared (notify saved_body "entry.save") "S1" "E1" initial_world)
  = (Ok "Ada Lovelace",
     extend (prepared (notify saved_body "entry.save") "S1" "E1"
               initial_world)
       [(GET "https://api.contentful.com/spaces/S1/users/" "Bearer tok",
         Received sample_users)]).
Proof.
  apply (user_name_is_first_and_last sample_net sample_cfg
           (prepared (notify saved_body "entry.save") "S1" "E1"
              initial_world)
           "https://api.contentful.com/spaces/S1/" sample_users
           [grace; ada] "U1" ada "Ada" "Lovelace").
  - reflexivity.
  - reflexivity.
  - reflexivity.
  - repeat constructor; discriminate.
  - reflexivity.
  - reflexivity.
  - reflexivity.
Defined.

Lemma lookup_miss_is_server_error_witness :
  let request := notify saved_body "entry.save" in
  let net := sample_api strangers true in
  let w2 := prepared request "S1" "E1" initial_world in
  let users_call :=
    GET "https://api.contentful.com/spaces/S1/users/" "Bearer tok" in
  resolveUserName net sample_cfg (Str "U1") w2 =
    (Throw TypeError, extend w2 [(users_call, Received strangers)])
  /\
  handler net sample_cfg request initial_world =
    (Ok (Reply 500 (ErrorBody TypeError)),
     logged (extend w2 [(users_call, Received strangers)]) TypeError).
Proof.
  apply (lookup_miss_is_server_error (sample_api strangers true) sample_cfg
           (notify saved_body "entry.save") initial_world "S1" "E1" "U1"
           (prepared (notify saved_body "entry.save") "S1" "E1"
              initial_world)
           strangers [grace]).
  - split; reflexivity.
  - reflexivity.
  - reflexivity.
  - reflexivity.
  - repeat constructor; discriminate.
  - reflexivity.
Defined.



Lemma entity_lookup_reads_unassigned_variables_witness :
  let request := notify published_body "entry.publish" in
  let w := prepared request "S1" "E1"
             (snd (serve sample_net sample_cfg
                     [notify saved_body "entry.save"] initial_world)) in
  let url := "https://api.contentful.com/spaces/S1/undefined/undefined" in
  snd (resolveUserId sample_net sample_cfg w) =
    extend w [(GET url "Bearer tok", Failed not_found)]
  /\ url <> "https://api.contentful.com/spaces/S1/entries/E1".
Proof.
  apply (entity_lookup_reads_unassigned_variables sample_net sample_cfg
           [notify saved_body "entry.save"]
           (notify published_body "entry.publish") "S1" "E1").
  - split; reflexivity.
  - reflexivity.
Defined.

Lemma template_is_fresh_per_request_witness :
  let request := notify saved_body "entry.save" in
  let w := snd (serve sample_net sample_cfg
                  [notify saved_body "entry.save";
                   notify asset_body "asset.publish"] initial_world) in
  observe (handler sample_net sample_cfg request w) =
    observe (handler sample_net sample_cfg request (fresh w)) /\
  exists new,
    traffic (snd (handler sample_net sample_cfg request w))
      = (traffic w ++ new)%list /\
    forall u m resp,
      In (POST u m, resp) new ->
      exists displayName,
        m = composed request "S1" "E1" displayName (collection_of request).
Proof.
  apply (template_is_fresh_per_request sample_net sample_cfg
           [notify saved_body "entry.save";
            notify asset_body "asset.publish"]
           (notify saved_body "entry.save") "S1" "E1").
  split; reflexivity.
Defined.

(** * Further properties of the handler *)

(** ** Counting the lookups *)

Lemma fetches_silent g cfg n {A} (m : M A) : silent m -> fetches g cfg n m.
Proof.
  intros H w _. exists []. rewrite extend_nil, H. cbn.
  repeat split; [lia | constructor].
Qed.

Lemma fetches_bind_run g cfg n1 n2 {A B} (m : M A) (k : A -> M B) :
  fetches g cfg n1 m ->
  (forall w a w', vars w = g -> m w = (Ok a, w') -> fetches g cfg n2 (k a)) ->
  fetches g cfg (n1 + n2) (bind m k).
Proof.
  intros Hm Hk w Hg. unfold bind.
  destruct (Hm w Hg) as (new1 & Hw & Hn & Ha).
  destruct (m w) as [[a|e] w1] eqn:Hrun; cbn [fst snd] in *; subst w1.
  - destruct (Hk _ _ _ Hg Hrun (extend w new1) Hg) as (new2 & Hw2 & Hn2 & Ha2).
    exists (new1 ++ new2)%list. rewrite Hw2, extend_extend, length_app.
    repeat split; [lia | now apply Forall_app].
  - exists new1. repeat split; [lia | assumption].
Qed.

Lemma fetches_same g cfg n {A} (m m' : M A) :
  (forall w, m' w = m w) -> fetches g cfg n m -> fetches g cfg n m'.
Proof. intros E H w Hg. rewrite E. now apply H. Qed.

Lemma fetches_axios net g cfg c :
  allowed g cfg c -> fetches g cfg 1 (axios net c).
Proof.
  intros Ha w _. rewrite axios_run. eexists. split; [reflexivity|].
  cbn. split; [lia | repeat constructor; exact Ha].
Qed.

Lemma fetches_call net g cfg c {A} (f : axios_response -> result A) :
  allowed g cfg c ->
  fetches g cfg 1
    (catch_ (then_ (axios net c) (fun response => lift (f response)))
            (fun error => throw error)).
Proof.
  intros Ha. apply (fetches_same g cfg 1 _ _ (catch_rethrow _)).
  unfold then_. change 1 with (1 + 0).
  apply fetches_bind_run; [now apply fetches_axios|].
  intros. apply fetches_silent, silent_lift.
Qed.

Lemma add_extends base b a :
  add (Str base) b = Ok a -> exists rest, added_string a = base ++ rest.
Proof.
  unfold add. cbn [to_primitive rbind].
  destruct (to_primitive b) as [pb|e]; cbn [rbind]; [|discriminate].
  intros H. inversion H; subst. cbn. eauto.
Qed.

Lemma bearer_header cfg authorization :
  str_add "Bearer " (of_option (cmaToken cfg)) = Ok authorization ->
  authorization = bearer cfg.
Proof.
  unfold str_add. rewrite to_string_of_option. cbn. congruence.
Qed.

Lemma getUserId_fetches net cfg w q w' :
  getUserId net cfg w = (Ok q, w') -> fetches (vars w) cfg 1 q.
Proof.
  unfold getUserId, bind, read, lift, ret. intros H.
  destruct (path (body (vars w)) ["sys"; "updatedBy"]) as [ub|]; [|discriminate].
  destruct (strict_neq_undefined ub).
  { destruct (path (body (vars w)) _) as [uid|]; inversion H; subst.
    apply fetches_silent, silent_ret. }
  destruct (prop_at typeUrlMap (type (vars w))) as [frag|]; [|discriminate].
  destruct (add (cmaURL (vars w)) frag) as [a|] eqn:Ha; [|discriminate].
  destruct (str_add (added_string a ++ "/") (id (vars w))) as [url|] eqn:Hu;
    [|discriminate].
  destruct (str_add "Bearer " (of_option (cmaToken cfg))) as [auth|] eqn:Hb;
    inversion H; subst; clear H.
  apply bearer_header in Hb. subst auth. apply fetches_call.
  exists url. split; [reflexivity|]. intros base Hbase.
  rewrite Hbase in Ha. apply add_extends in Ha as (rest & Ha).
  unfold str_add in Hu.
  destruct (to_string (id _)) as [i|]; cbn in Hu; inversion Hu.
  rewrite Ha, !append_assoc. eauto.
Qed.

Lemma getUserName_fetches net cfg userId w q w' :
  getUserName net cfg userId w = (Ok q, w') -> fetches (vars w) cfg 1 q.
Proof.
  unfold getUserName, bind, read, lift, ret. intros H.
  destruct (add_str (cmaURL (vars w)) "users/") as [url|] eqn:Hu;
    [|discriminate].
  destruct (str_add "Bearer " (of_option (cmaToken cfg))) as [auth|] eqn:Hb;
    inversion H; subst; clear H.
  apply bearer_header in Hb. subst auth. apply fetches_call.
  exists url. split; [reflexivity|]. intros base Hbase.
  rewrite Hbase in Hu. cbn in Hu. inversion Hu. eauto.
Qed.

Lemma then_p_fetches net cfg w p w1 :
  getUserId net cfg w = (Ok p, w1) ->
  fetches (vars w) cfg 2 (then_p p (getUserName net cfg)).
Proof.
  intros Hp. unfold then_p. change 2 with (1 + 1).
  apply fetches_bind_run; [eapply getUserId_fetches; eauto|].
  intros w2 userId w3 Hg _. change 1 with (0 + 1).
  apply fetches_bind_run.
  - apply fetches_silent, getUserName_silent.
  - intros w4 q w5 Hg4 Hq. rewrite <- Hg4.
    eapply getUserName_fetches; eauto.
Qed.

(** The chain, run in any world, is tidy. *)
Lemma pipeline_tidy net cfg w :
  tidy (vars w) cfg w (pipeline net cfg w).
Proof.
  rewrite pipeline_run.
  pose proof (getUserId_silent net cfg w) as Hs.
  destruct (getUserId net cfg w) as [[p|e] w1] eqn:Hp;
    cbn [snd] in Hs; subst w1.
  2:{ exists [], []. cbn. rewrite !app_nil_r. repeat split; auto. }
  destruct (then_p_fetches _ _ _ _ _ Hp w eq_refl) as (gets & Hw & Hn & Ha).
  destruct (then_p p (getUserName net cfg) w) as [[name|e] w3];
    cbn [fst snd] in *; subst w3.
  2:{ exists gets, []. cbn. rewrite !app_nil_r. repeat split; auto. }
  rewrite delivery_run.
  pose proof (postToSlack_quiet net cfg name (extend w gets)) as (Q1 & Q2 & _).
  destruct (postToSlack net cfg name (extend w gets)) as [[q|e] w4] eqn:Hq;
    cbn [fst snd] in *.
  2:{ exists gets, []. cbn. rewrite Q1, Q2, !app_nil_r. cbn.
      repeat split; auto. }
  apply postToSlack_promise in Hq as (m & ->). rewrite axios_run.
  exists gets, [(POST (of_option (slackURL cfg)) m,
                 net (traffic w4) (POST (of_option (slackURL cfg)) m))].
  destruct (net (traffic w4) _) as [d|reason];
    cbn [fst snd traffic console extend logged logged_error];
    rewrite Q1, Q2; cbn [traffic console extend]; rewrite <- ?app_assoc,
      ?app_nil_r; repeat split; eauto.
Qed.

(** ** The handler on any request *)

(** A request either makes the handler throw before the chain, or is
    skipped by the type filter, or reaches the chain with its type reading
    Entry. *)
Lemma handler_reaches net cfg request w :
  (exists e w0,
     handler net cfg request w = (Throw e, w0) /\
     traffic w0 = traffic w /\ console w0 = console w)
  \/
  (handler net cfg request w = (Ok skipped, touched (req_body request) w) /\
   exists s, read_string (req_body request) ["sys"; "type"] = Ok s /\
             s <> "Entry")
  \/
  (exists w1,
     traffic w1 = traffic w /\ console w1 = console w /\
     handler net cfg request w = pipeline net cfg w1 /\
     read_string (req_body request) ["sys"; "type"] = Ok "Entry").
Proof.
  unfold handler. fold (pipeline net cfg).
  unfold extract, bind, write, read, lift, ret. cbn [vars body set_body].
  destruct (path (req_body request) ["sys"; "id"]) as [i|e];
    [|left; eexists _, _; repeat split; reflexivity].
  destruct (path (req_body request) ["sys"; "space"; "sys"; "id"]) as [sp|e];
    [|left; eexists _, _; repeat split; reflexivity].
  unfold read_string.
  destruct (path (req_body request) ["sys"; "type"]) as [t|e];
    [|left; eexists _, _; repeat split; reflexivity].
  unfold loose_neq. rewrite loose_eq_Entry.
  destruct (to_string t) as [s|e] eqn:Hs; cbn [rbind];
    [|left; eexists _, _; repeat split; reflexivity].
  destruct (String.eqb_spec s "Entry") as [->|Hne]; cbn [negb].
  2:{ right. left. split; [reflexivity|]. eauto. }
  destruct (to_string sp) as [space|e];
    [|left; eexists _, _; repeat split; reflexivity].
  destruct (x <~ prop_at typeUrlMap t;;; to_string x) as [fragment|e];
    [|left; eexists _, _; repeat split; reflexivity].
  destruct (to_string i) as [entity|e];
    [|left; eexists _, _; repeat split; reflexivity].
  destruct (to_string (of_option (x_contentful_webhook_name request)))
    as [name|e]; [|left; eexists _, _; repeat split; reflexivity].
  right. right. eexists.
  split; [|split; [|split; [reflexivity | exact Hs]]]; reflexivity.
Qed.

Lemma pipeline_replies net cfg w :
  match fst (pipeline net cfg w) with
  | Ok rep => rep = posted_ok \/ exists e, rep = Reply 500 (ErrorBody e)
  | Throw _ => True
  end.
Proof.
  rewrite pipeline_run.
  destruct (getUserId net cfg w) as [[p|e] w1]; [|exact I].
  destruct (then_p p (getUserName net cfg) w1) as [[name|e] w3];
    [|cbn; eauto].
  rewrite delivery_run.
  destruct (postToSlack net cfg name w3) as [[q|e] w4]; [|cbn; eauto].
  destruct (q w4) as [[a|e] w5]; cbn; eauto.
Qed.

Lemma handler_tidy net cfg request w :
  exists g, tidy g cfg w (handler net cfg request w).
Proof.
  destruct (handler_reaches net cfg request w)
    as [(e & w0 & -> & Ht & Hc)|[(-> & _)|(w1 & Ht & Hc & -> & _)]].
  - exists (vars w), [], []. cbn. rewrite Ht, Hc, !app_nil_r.
    repeat split; auto.
  - exists (vars w), [], []. cbn. rewrite !app_nil_r. repeat split; auto.
  - exists (vars w1). destruct (pipeline_tidy net cfg w1)
      as (gets & posts & H1 & H2 & H3 & H4 & H5).
    exists gets, posts. rewrite <- Ht, <- Hc. repeat split; assumption.
Qed.

(** ** Properties of every request *)

(** X1.  Whatever the request, the handler issues at most two GETs, each
    carrying the bearer token, and after them at most one POST, to the
    Slack URL; nothing else goes out, and nothing goes out after the
    POST. *)
Theorem at_most_two_lookups_then_one_post net cfg request w :
  exists gets posts,
    traffic (snd (handler net cfg request w))
      = (traffic w ++ gets ++ posts)%list /\
    List.length gets <= 2 /\
    Forall (fun x => exists url, fst x = GET url (bearer cfg)) gets /\
    (posts = [] \/
     exists m resp, posts = [(POST (of_option (slackURL cfg)) m, resp)]).
Proof.
  destruct (handler_tidy net cfg request w)
    as (g & gets & posts & H1 & H2 & H3 & H4 & _).
  exists gets, posts. repeat split; try assumption.
  eapply Forall_impl; [|exact H3].
  intros x (url & Hx & _). eauto.
Qed.

(** X2.  Whatever the request, the console gets exactly one line, the
    error, when the reply is a 500, and nothing otherwise: not on a
    success, not on a skipped type, not on an uncaught exception. *)
Theorem console_gets_the_replied_error net cfg request w :
  console (snd (handler net cfg request w)) =
  (console w ++ logged_error (fst (handler net cfg request w)))%list.
Proof.
  destruct (handler_tidy net cfg request w)
    as (g & gets & posts & _ & _ & _ & _ & H). exact H.
Qed.

(** X3.  For a request whose three objects are there, the reply is the
    text of the type filter exactly when [sys.type], read as a string, is
    not Entry: an Entry is never answered with it. *)
Theorem skipped_exactly_when_not_entry net cfg request w s :
  read_string (req_body request) ["sys"; "type"] = Ok s ->
  fst (handler net cfg request w) = Ok skipped <-> 
  lacks_object (req_body request) = false /\ s <> "Entry".
Proof.
  intros Hs. split.
  - intros Hrun.
    destruct (handler_reaches net cfg request w)
      as [(e & w0 & H & _)|[(H & s' & Hs' & Hne)|(w1 & _ & _ & H & _)]].
    + rewrite H in Hrun. discriminate.
    + split; [|congruence].
      destruct (lacks_object (req_body request)) eqn:Hl; [|reflexivity].
      unfold handler, bind at 1 in H.
      rewrite (extract_throws _ _ Hl) in H. discriminate.
    + pose proof (pipeline_replies net cfg w1) as Hp.
      rewrite <- H, Hrun in Hp. destruct Hp as [Hp|(e & Hp)]; discriminate.
  - intros (Hl & Hne).
    destruct (handler_reaches net cfg request w)
      as [(e & w0 & H & _)|[(H & _)|(w1 & _ & _ & _ & Ht)]].
    + exfalso. unfold handler, bind at 1 in H.
      rewrite (extract_reads _ _ Hl) in H.
      unfold read_string, at_path in *.
      destruct (path (req_body request) ["sys"; "type"]) as [t|];
        cbn [rbind] in Hs; [|discriminate].
      unfold bind, lift, ret, loose_neq in H.
      rewrite loose_eq_Entry, Hs in H. cbn [rbind] in H.
      apply String.eqb_neq in Hne. rewrite Hne in H. discriminate.
    + now rewrite H.
    + congruence.
Qed.

(** ** Conversions throw nothing but TypeError *)

Lemma value_ind_items (P : value -> Prop) :
  P Undefined -> P Null -> (forall s, P (Str s)) ->
  (forall items, Forall P items -> P (Arr items)) ->
  (forall props, P (Obj props)) ->
  forall v, P v.
Proof.
  intros HU HN HS HA HO. fix IH 1.
  intros [| |s|items|props];
    [exact HU | exact HN | apply HS | | apply HO].
  apply HA. induction items as [|x rest IHrest];
    constructor; [apply IH | exact IHrest].
Qed.

Lemma to_string_Arr items : to_string (Arr items) = join items.
Proof.
  cbn [to_string]. induction items as [|x rest IH]; [reflexivity|].
  cbn [join]. unfold element_string. rewrite <- IH. reflexivity.
Qed.

Lemma to_string_throws v : forall e, to_string v = Throw e -> e = TypeError.
Proof.
  induction v as [| |s|items Hitems|props] using value_ind_items;
    try discriminate.
  - rewrite to_string_Arr.
    induction Hitems as [|x rest Hx _ IH]; [discriminate|].
    intros e. cbn [join].
    destruct (element_string x) as [sx|ex] eqn:Ex; cbn [rbind].
    + destruct rest as [|y rest']; [discriminate|].
      destruct (join (y :: rest')) as [sr|er]; cbn [rbind]; [discriminate|].
      intros H. inversion H; subst. now apply IH.
    + intros H. inversion H; subst. apply Hx.
      destruct x; cbn in Ex; try discriminate; exact Ex.
  - intros e. cbn. destruct (has_own props "toString"); congruence.
Qed.

Lemma loose_eq_throws x y e : loose_eq x y = Throw e -> e = TypeError.
Proof.
  destruct x, y; cbn [loose_eq]; try discriminate;
    match goal with
    | |- context [to_string ?v] =>
        destruct (to_string v) eqn:E; cbn [rbind]; [discriminate|];
        intros H; inversion H; subst; eapply to_string_throws; eauto
    end.
Qed.

Lemma same_user_throws userId user e :
  same_user userId user = Throw e -> e = TypeError.
Proof.
  unfold same_user.
  destruct (path user ["sys"; "id"]) as [uid|e'] eqn:E; cbn [rbind].
  - apply loose_eq_throws.
  - intros H. inversion H; subst. eapply path_throws; eauto.
Qed.

Lemma filter_list_throws keep l e :
  (forall x e', keep x = Throw e' -> e' = TypeError) ->
  filter_list keep l = Throw e -> e = TypeError.
Proof.
  intros Hk. induction l as [|x rest IH]; cbn [filter_list]; [discriminate|].
  destruct (keep x) as [b|e'] eqn:E; cbn [rbind].
  - destruct (filter_list keep rest); cbn [rbind]; [discriminate|].
    intros H. inversion H; subst. now apply IH.
  - intros H. inversion H; subst. eauto.
Qed.

Lemma filter_list_poisoned keep l x e :
  In x l -> keep x = Throw e -> exists e', filter_list keep l = Throw e'.
Proof.
  intros Hin Hx. induction l as [|y rest IH]; [contradiction|].
  cbn [filter_list]. destruct (keep y) as [b|e'] eqn:E; cbn [rbind]; [|eauto].
  destruct Hin as [->|Hin]; [congruence|].
  destruct (IH Hin) as (e'' & ->). cbn. eauto.
Qed.

(** ** Properties of the user-name lookup *)

Lemma handler_name_fails net cfg request w sid eid userId w2 d e :
  entry_of (req_body request) sid eid ->
  resolveUserId net cfg (prepared request sid eid w) = (Ok userId, w2) ->
  net (traffic w2) (GET (api_base sid ++ "users/") (bearer cfg))
    = Received d ->
  pickUserName userId {| data := d |} = Throw e ->
  handler net cfg request w =
    (Ok (Reply 500 (ErrorBody e)),
     logged
       (extend w2 [(GET (api_base sid ++ "users/") (bearer cfg), Received d)])
       e).
Proof.
  intros He Hid Hnet Hpick.
  assert (Hb : cmaURL (vars w2) = Str (api_base sid)).
  { now rewrite (resolveUserId_vars _ _ _ _ _ Hid). }
  rewrite (handler_entry net cfg request w sid eid He).
  rewrite (pipeline_named _ _ _ _ _ Hid).
  rewrite (resolveUserName_run _ _ _ _ _ Hb), Hnet, Hpick. reflexivity.
Qed.

Lemma pickUserName_no_array userId d :
  (forall items, at_path d ["items"] <> Arr items) ->
  pickUserName userId {| data := d |} = Throw TypeError.
Proof.
  unfold pickUserName, at_path. cbn [data]. intros H.
  destruct (path d ["items"]) as [v|e] eqn:E; cbn [rbind].
  - destruct v; try reflexivity. now destruct (H items).
  - now rewrite (path_throws _ _ _ E).
Qed.

Lemma same_user_unreadable userId user :
  nullish (at_path user ["sys"]) = true ->
  same_user userId user = Throw TypeError.
Proof.
  unfold same_user, at_path. cbn [path].
  destruct (prop user "sys") as [y|e] eqn:E; cbn [rbind].
  - intros H. now rewrite (prop_nullish _ "id" H).
  - intros _. now rewrite (prop_throws _ _ _ E).
Qed.

Lemma pickUserName_poisoned userId d items x :
  path d ["items"] = Ok (Arr items) ->
  In x items ->
  nullish (at_path x ["sys"]) = true ->
  pickUserName userId {| data := d |} = Throw TypeError.
Proof.
  intros Hitems Hin Hx. unfold pickUserName. cbn [data]. rewrite Hitems.
  cbn [rbind array_filter].
  change (filter_list _ items) with (filter_list (same_user userId) items).
  destruct (filter_list_poisoned (same_user userId) items x TypeError Hin
              (same_user_unreadable userId x Hx)) as (e & He).
  rewrite He. cbn [rbind].
  now rewrite (filter_list_throws _ _ _ (same_user_throws userId) He).
Qed.

(** X4.  For an Entry whose user id resolved: when the answer of the users
    lookup carries no [items] array (an error document, say), the request
    ends in a 500 carrying a TypeError, logged, and nothing is posted. *)
Theorem users_without_items_is_server_error
  net cfg request w sid eid userId w2 d :
  entry_of (req_body request) sid eid ->
  resolveUserId net cfg (prepared request sid eid w) = (Ok userId, w2) ->
  net (traffic w2) (GET (api_base sid ++ "users/") (bearer cfg))
    = Received d ->
  (forall items, at_path d ["items"] <> Arr items) ->
  handler net cfg request w =
    (Ok (Reply 500 (ErrorBody TypeError)),
     logged
       (extend w2 [(GET (api_base sid ++ "users/") (bearer cfg), Received d)])
       TypeError).
Proof.
  intros He Hid Hnet Hno.
  apply (handler_name_fails net cfg request w sid eid userId w2 d TypeError
           He Hid Hnet).
  now apply pickUserName_no_array.
Qed.

(** X5.  For an Entry whose user id resolved: one item of the users
    collection that is [null] or has no [sys] makes the lookup fail with a
    TypeError, and the request end in a 500, even when the user looked for
    is in the collection: the filter reads [sys.id] of every item. *)
Theorem one_unreadable_user_fails_the_lookup
  net cfg request w sid eid userId w2 d items x :
  entry_of (req_body request) sid eid ->
  resolveUserId net cfg (prepared request sid eid w) = (Ok userId, w2) ->
  net (traffic w2) (GET (api_base sid ++ "users/") (bearer cfg))
    = Received d ->
  path d ["items"] = Ok (Arr items) ->
  In x items ->
  nullish (at_path x ["sys"]) = true ->
  handler net cfg request w =
    (Ok (Reply 500 (ErrorBody TypeError)),
     logged
       (extend w2 [(GET (api_base sid ++ "users/") (bearer cfg), Received d)])
       TypeError).
Proof.
  intros He Hid Hnet Hitems Hin Hx.
  apply (handler_name_fails net cfg request w sid eid userId w2 d TypeError
           He Hid Hnet).
  exact (pickUserName_poisoned userId d items x Hitems Hin Hx).
Qed.


(** ** Properties of the user-id lookup *)

Lemma updater_read b userId :
  path b ["sys"; "updatedBy"; "sys"; "id"] = Ok userId ->
  exists updatedBy,
    path b ["sys"; "updatedBy"] = Ok updatedBy /\ updatedBy <> Undefined.
Proof.
  cbn [path]. destruct (prop b "sys") as [sys|]; cbn [rbind]; [|discriminate].
  destruct (prop sys "updatedBy") as [ub|]; cbn [rbind]; [|discriminate].
  intros H. exists ub. split; [reflexivity|]. intros ->. discriminate.
Qed.

(** X6.  In any world and whatever the network: when the body carries
    [sys.updatedBy.sys.id], the user-id step resolves to it at once; no
    call goes out and the world is left as it was. *)
Theorem updater_in_body_needs_no_lookup net cfg w userId :
  path (body (vars w)) ["sys"; "updatedBy"; "sys"; "id"] = Ok userId ->
  resolveUserId net cfg w = (Ok userId, w).
Proof.
  intros H. destruct (updater_read _ _ H) as (ub & Hu & Hne).
  unfold resolveUserId, getUserId, bind, read, lift, ret.
  rewrite Hu. destruct ub; try congruence; cbn [strict_neq_undefined];
    now rewrite H.
Qed.

Lemma unreadable_id v :
  nullish (at_path v ["sys"]) = true ->
  path v ["sys"; "id"] = Throw TypeError.
Proof.
  unfold at_path. cbn [path].
  destruct (prop v "sys") as [y|e] eqn:E; cbn [rbind].
  - intros H. now rewrite (prop_nullish _ "id" H).
  - intros _. now rewrite (prop_throws _ _ _ E).
Qed.

Lemma entry_has_sys b sid eid :
  entry_of b sid eid ->
  exists sys, prop b "sys" = Ok sys /\ nullish sys = false.
Proof.
  intros [_ _ Ht]. unfold read_string in Ht. cbn [path] in Ht.
  destruct (prop b "sys") as [sys|]; cbn [rbind] in Ht; [|discriminate].
  exists sys. split; [reflexivity|].
  destruct sys; try reflexivity; discriminate.
Qed.

(** X7.  An Entry whose [sys.updatedBy] is there but is [null], or has no
    [sys], makes [getUserId] throw before any promise exists: the handler
    ends with an uncaught TypeError, having sent no reply, issued no call
    and logged nothing, instead of taking the 500 path. *)
Theorem unreadable_updater_is_uncaught net cfg request w sid eid :
  entry_of (req_body request) sid eid ->
  at_path (req_body request) ["sys"; "updatedBy"] <> Undefined ->
  nullish (at_path (req_body request) ["sys"; "updatedBy"; "sys"]) = true ->
  handler net cfg request w = (Throw TypeError, prepared request sid eid w).
Proof.
  intros He Hne Hnull.
  rewrite (handler_entry net cfg request w sid eid He), pipeline_run.
  destruct (entry_has_sys _ _ _ He) as (sys & Hsys & Nsys).
  destruct (prop_reads sys "updatedBy" Nsys) as (ub & Hub).
  assert (Hu : path (req_body request) ["sys"; "updatedBy"] = Ok ub).
  { cbn [path]. rewrite Hsys. cbn [rbind]. now rewrite Hub. }
  assert (Hne' : ub <> Undefined).
  { unfold at_path in Hne. now rewrite Hu in Hne. }
  assert (Hid : path (req_body request) ["sys"; "updatedBy"; "sys"; "id"]
                = Throw TypeError).
  { change ["sys"; "updatedBy"; "sys"; "id"]
      with (["sys"; "updatedBy"] ++ ["sys"; "id"])%list.
    rewrite (path_app _ _ _ _ Hu). apply unreadable_id.
    unfold at_path in *.
    change ["sys"; "updatedBy"; "sys"]
      with (["sys"; "updatedBy"] ++ ["sys"])%list in Hnull.
    now rewrite (path_app _ _ _ _ Hu) in Hnull. }
  unfold getUserId, bind, read, lift, ret.
  cbn [vars prepared prepared_vars body].
  rewrite Hu. destruct ub; try congruence; cbn [strict_neq_undefined];
    now rewrite Hid.
Qed.

Lemma getUserId_absent net cfg w base :
  path (body (vars w)) ["sys"; "updatedBy"] = Ok Undefined ->
  type (vars w) = Undefined ->
  id (vars w) = Undefined ->
  cmaURL (vars w) = Str base ->
  exists p, getUserId net cfg w = (Ok p, w).
Proof.
  intros Hu Ht Hi Hb. unfold getUserId, bind, read, lift, ret.
  rewrite Hu, Ht, Hi, Hb. cbn [strict_neq_undefined].
  unfold str_add. rewrite to_string_of_option. cbn. eauto.
Qed.

(** X8.  After any sequence of requests, for an Entry that carries no
    updater: when the entity lookup does not yield a user id (the call
    fails, or [sys.updatedBy.sys.id] of its answer cannot be read), the
    reply is a 500 carrying that error, the error is logged, and that one
    GET is all the traffic: neither the users lookup nor the post is
    attempted. *)
Theorem unresolved_updater_is_server_error
  net cfg earlier request sid eid e w2 :
  entry_of (req_body request) sid eid ->
  path (req_body request) ["sys"; "updatedBy"] = Ok Undefined ->
  let w := snd (serve net cfg earlier initial_world) in
  resolveUserId net cfg (prepared request sid eid w) = (Throw e, w2) ->
  handler net cfg request w = (Ok (Reply 500 (ErrorBody e)), logged w2 e) /\
  exists url resp,
    traffic w2 = (traffic w ++ [(GET url (bearer cfg), resp)])%list.
Proof.
  intros He Hu w Hres.
  destruct (serve_keeps net cfg earlier initial_world) as (Kt & Ki).
  fold w in Kt, Ki. cbn in Kt, Ki.
  set (w1 := prepared request sid eid w) in *.
  destruct (getUserId_absent net cfg w1 (api_base sid) Hu Kt Ki eq_refl)
    as (p & Hp).
  split.
  - rewrite (handler_entry net cfg request w sid eid He), pipeline_run.
    fold w1. rewrite Hp. unfold then_p. unfold bind at 1.
    unfold resolveUserId, bind in Hres. rewrite Hp in Hres. rewrite Hres.
    reflexivity.
  - pose proof (resolveUserId_absent net cfg w1 (api_base sid)
                  Hu Kt Ki eq_refl) as Habs.
    cbv zeta in Habs. rewrite Hres in Habs. inversion Habs; subst.
    eexists _, _. reflexivity.
Qed.

(** ** Properties of the module variables and of the traffic *)

(** X9.  The module-level variables [type] and [id] are never assigned:
    after any sequence of requests, whatever the network answered, both
    are still [undefined]. *)
Theorem type_and_id_stay_undefined net cfg requests :
  type (vars (snd (serve net cfg requests initial_world))) = Undefined /\
  id (vars (snd (serve net cfg requests initial_world))) = Undefined.
Proof. exact (serve_keeps net cfg requests initial_world). Qed.

(** X10.  For an Entry, every GET the handler issues carries the bearer
    token in its Authorization header and goes to a URL under
    [https://api.contentful.com/spaces/{spaceId}/]. *)
Theorem lookups_go_to_the_space net cfg request w sid eid :
  entry_of (req_body request) sid eid ->
  exists new,
    traffic (snd (handler net cfg request w)) = (traffic w ++ new)%list /\
    forall url authorization resp,
      In (GET url authorization, resp) new ->
      authorization = bearer cfg /\
      exists rest, url = api_base sid ++ rest.
Proof.
  intros He. rewrite (handler_entry net cfg request w sid eid He).
  destruct (pipeline_tidy net cfg (prepared request sid eid w))
    as (gets & posts & Ht & _ & Ha & Hp & _).
  exists (gets ++ posts)%list. split; [exact Ht|].
  intros url auth resp Hin. apply in_app_or in Hin as [Hin|Hin].
  - rewrite Forall_forall in Ha.
    destruct (Ha _ Hin) as (url' & Hc & Hbase). cbn [fst] in Hc.
    inversion Hc; subst. split; [reflexivity|].
    apply (Hbase (api_base sid)). reflexivity.
  - destruct Hp as [->|(m & r & ->)]; [contradiction|].
    destruct Hin as [Hin|[]]. discriminate.
Qed.

(** ** Properties of the composed message *)


(** ** End to end *)


(** ** The further properties on the sample space *)

Lemma skipped_exactly_when_not_entry_witness :
  read_string asset_body ["sys"; "type"] = Ok "Asset" /\
  (fst (handler sample_net sample_cfg (notify asset_body "asset.publish")
          initial_world) = Ok skipped
   <-> lacks_object asset_body = false /\ "Asset" <> "Entry").
Proof.
  split; [reflexivity|].
  apply (skipped_exactly_when_not_entry sample_net sample_cfg
           (notify asset_body "asset.publish") initial_world "Asset").
  reflexivity.
Defined.

Lemma users_without_items_is_server_error_witness :
  let request := notify saved_body "entry.save" in
  let w2 := prepared request "S1" "E1" initial_world in
  handler (sample_api no_items true) sample_cfg request initial_world =
    (Ok (Reply 500 (ErrorBody TypeError)),
     logged
       (extend w2
          [(GET "https://api.contentful.com/spaces/S1/users/" "Bearer tok",
            Received no_items)])
       TypeError).
Proof.
  apply (users_without_items_is_server_error (sample_api no_items true)
           sample_cfg (notify saved_body "entry.save") initial_world
           "S1" "E1" (Str "U1")
           (prepared (notify saved_body "entry.save") "S1" "E1"
              initial_world)
           no_items).
  - split; reflexivity.
  - reflexivity.
  - reflexivity.
  - intros items. vm_compute. discriminate.
Defined.

Lemma one_unreadable_user_fails_the_lookup_witness :
  let request := notify saved_body "entry.save" in
  let w2 := prepared request "S1" "E1" initial_world in
  In ada [Null; ada] /\
  handler (sample_api holed_users true) sample_cfg request initial_world =
    (Ok (Reply 500 (ErrorBody TypeError)),
     logged
       (extend w2
          [(GET "https://api.contentful.com/spaces/S1/users/" "Bearer tok",
            Received holed_users)])
       TypeError).
Proof.
  split; [right; left; reflexivity|].
  apply (one_unreadable_user_fails_the_lookup (sample_api holed_users true)
           sample_cfg (notify saved_body "entry.save") initial_world
           "S1" "E1" (Str "U1")
           (prepared (notify saved_body "entry.save") "S1" "E1"
              initial_world)
           holed_users [Null; ada] Null).
  - split; reflexivity.
  - reflexivity.
  - reflexivity.
  - reflexivity.
  - left; reflexivity.
  - reflexivity.
Defined.

Lemma updater_in_body_needs_no_lookup_witness :
  let w := prepared (notify saved_body "entry.save") "S1" "E1"
             initial_world in
  resolveUserId sample_net sample_cfg w = (Ok (Str "U1"), w).
Proof.
  apply (updater_in_body_needs_no_lookup sample_net sample_cfg
           (prepared (notify saved_body "entry.save") "S1" "E1"
              initial_world)
           (Str "U1")).
  reflexivity.
Defined.

Lemma unreadable_updater_is_uncaught_witness :
  handler sample_net sample_cfg (notify nulled_body "entry.save")
    initial_world
  = (Throw TypeError,
     prepared (notify nulled_body "entry.save") "S1" "E1" initial_world).
Proof.
  apply (unreadable_updater_is_uncaught sample_net sample_cfg
           (notify nulled_body "entry.save") initial_world "S1" "E1").
  - split; reflexivity.
  - discriminate.
  - reflexivity.
Defined.

Lemma unresolved_updater_is_server_error_witness :
  let request := notify published_body "entry.publish" in
  let w := snd (serve sample_net sample_cfg
                  [notify asset_body "asset.publish"] initial_world) in
  let w2 := snd (resolveUserId sample_net sample_cfg
                   (prepared request "S1" "E1" w)) in
  handler sample_net sample_cfg request w =
    (Ok (Reply 500 (ErrorBody (AxiosError not_found))),
     logged w2 (AxiosError not_found)) /\
  exists url resp,
    traffic w2 = (traffic w ++ [(GET url (bearer sample_cfg), resp)])%list.
Proof.
  apply (unresolved_updater_is_server_error sample_net sample_cfg
           [notify asset_body "asset.publish"]
           (notify published_body "entry.publish") "S1" "E1"
           (AxiosError not_found)).
  - split; reflexivity.
  - reflexivity.
  - vm_compute; reflexivity.
Defined.

Lemma lookups_go_to_the_space_witness :
  let request := notify published_body "entry.publish" in
  exists new,
    traffic (snd (handler sample_net sample_cfg request initial_world))
      = (traffic initial_world ++ new)%list /\
    forall url authorization resp,
      In (GET url authorization, resp) new ->
      authorization = bearer sample_cfg /\
      exists rest, url = api_base "S1" ++ rest.
Proof.
  apply (lookups_go_to_the_space sample_net sample_cfg
           (notify published_body "entry.publish") initial_world "S1" "E1").
  split; reflexivity.
Defined.



(** * Failures, step by step *)

Lemma chain_starts net cfg request sid eid w :
  entry_of (req_body request) sid eid ->
  updater_usable (req_body request) = true ->
  type (vars w) = Undefined ->
  id (vars w) = Undefined ->
  exists p,
    getUserId net cfg (prepared request sid eid w)
    = (Ok p, prepared request sid eid w).
Proof.
  intros He Hu Kt Ki.
  destruct (entry_has_sys _ _ _ He) as (sys & Hsys & Nsys).
  destruct (prop_reads sys "updatedBy" Nsys) as (ub & Hub).
  assert (Hpath : path (req_body request) ["sys"; "updatedBy"] = Ok ub).
  { cbn [path]. rewrite Hsys. cbn [rbind]. now rewrite Hub. }
  unfold updater_usable in Hu. unfold at_path at 1 in Hu.
  rewrite Hpath in Hu.
  destruct (strict_neq_undefined ub) eqn:Hs.
  - apply negb_true_iff in Hu. unfold at_path in Hu.
    change ["sys"; "updatedBy"; "sys"]
      with (["sys"; "updatedBy"] ++ ["sys"])%list in Hu.
    rewrite (path_app _ _ _ _ Hpath) in Hu.
    destruct (nullish_at_path ub "sys" [] Hu) as (x & Hx & Nx).
    destruct (prop_reads x "id" Nx) as (uid & Huid).
    assert (Hid : path (req_body request)
                    ["sys"; "updatedBy"; "sys"; "id"] = Ok uid).
    { change ["sys"; "updatedBy"; "sys"; "id"]
        with (["sys"; "updatedBy"] ++ ["sys"; "id"])%list.
      rewrite (path_app _ _ _ _ Hpath).
      change (path ub ["sys"] = Ok x) in Hx. cbn [path] in Hx |- *.
      destruct (prop ub "sys") as [y|]; cbn [rbind] in Hx |- *;
        [|discriminate Hx].
      injection Hx as Hy. rewrite Hy, Huid. reflexivity. }
    unfold getUserId, bind, read, lift, ret.
    cbn [vars prepared prepared_vars body]. rewrite Hpath, Hs, Hid. eauto.
  - assert (ub = Undefined) by (destruct ub; cbn in Hs; congruence).
    subst ub.
    apply (getUserId_absent net cfg (prepared request sid eid w)
             (api_base sid)); [exact Hpath | exact Kt | exact Ki | reflexivity].
Qed.

Lemma then_p_run {A B} (p : promise A) (f : A -> M (promise B)) w :
  then_p p f w =
  match p w with
  | (Ok a, w') => (q <- f a ;; q) w'
  | (Throw e, w') => (Throw e, w')
  end.
Proof. reflexivity. Qed.

(** The handler of an Entry whose chain was started is its three steps in
    a row, and the first that fails decides the reply. *)
Lemma pipeline_steps net cfg w p :
  getUserId net cfg w = (Ok p, w) ->
  pipeline net cfg w =
  match resolveUserId net cfg w with
  | (Throw e, w2) => (Ok (Reply 500 (ErrorBody e)), logged w2 e)
  | (Ok userId, w2) =>
      match resolveUserName net cfg userId w2 with
      | (Throw e, w3) => (Ok (Reply 500 (ErrorBody e)), logged w3 e)
      | (Ok displayName, w3) =>
          match postMessage net cfg displayName w3 with
          | (Throw e, w4) => (Ok (Reply 500 (ErrorBody e)), logged w4 e)
          | (Ok _, w4) => (Ok posted_ok, w4)
          end
      end
  end.
Proof.
  intros Hp. rewrite pipeline_run, Hp, then_p_run.
  assert (Hr : resolveUserId net cfg w = p w).
  { unfold resolveUserId, bind. now rewrite Hp. }
  rewrite Hr. destruct (p w) as [[userId|e] w2]; [|reflexivity].
  fold (resolveUserName net cfg userId).
  destruct (resolveUserName net cfg userId w2) as [[name|e] w3];
    [|reflexivity].
  rewrite delivery_run. unfold postMessage, bind.
  destruct (postToSlack net cfg name w3) as [[q|e] w4]; [|reflexivity].
  destruct (q w4) as [[a|e] w5]; reflexivity.
Qed.

(** C7, as amended.  After any sequence of requests, for an Entry whose
    updater is absent or readable, the handler is the three steps in a row
    (user id, user name, composition and delivery), and the first step
    that fails decides: the reply is a 500 whose body is the error that
    step failed with, the error object itself and not a text, that error
    is logged, and the world is the one the failing step left, so no later
    step runs.  When no step fails the reply is the 200 confirmation.
    In either case the traffic is in good order: exactly one message is
    delivered with the confirmation and none with a 500, and a failed
    exchange is the last one, its reason being the error replied. *)
Theorem failing_step_is_replied_and_logged
  net cfg earlier request sid eid :
  entry_of (req_body request) sid eid ->
  updater_usable (req_body request) = true ->
  let w := snd (serve net cfg earlier initial_world) in
  let w1 := prepared request sid eid w in
  handler net cfg request w =
    match resolveUserId net cfg w1 with
    | (Throw e, w2) => (Ok (Reply 500 (ErrorBody e)), logged w2 e)
    | (Ok userId, w2) =>
        match resolveUserName net cfg userId w2 with
        | (Throw e, w3) => (Ok (Reply 500 (ErrorBody e)), logged w3 e)
        | (Ok displayName, w3) =>
            match postMessage net cfg displayName w3 with
            | (Throw e, w4) => (Ok (Reply 500 (ErrorBody e)), logged w4 e)
            | (Ok _, w4) =>
                (Ok (Reply 200 (Plain "Slack post successful!")), w4)
            end
        end
    end
  /\
  exists new,
    traffic (snd (handler net cfg request w)) = (traffic w ++ new)%list /\
    ((fst (handler net cfg request w)
        = Ok (Reply 200 (Plain "Slack post successful!")) /\
      console (snd (handler net cfg request w)) = console w /\
      deliveries new = 1 /\
      forallb succeeded new = true)
     \/
     (exists e,
        fst (handler net cfg request w) = Ok (Reply 500 (ErrorBody e)) /\
        console (snd (handler net cfg request w))
          = (console w ++ [e])%list /\
        deliveries new = 0 /\
        orderly (Throw e : result reply) new)).
Proof.
  intros He Hu w w1.
  destruct (serve_keeps net cfg earlier initial_world) as (Kt & Ki).
  fold w in Kt, Ki. cbn in Kt, Ki.
  destruct (chain_starts net cfg request sid eid w He Hu Kt Ki) as (p & Hp).
  subst w1.
  assert (Hsteps := pipeline_steps net cfg _ p Hp).
  rewrite <- (handler_entry net cfg request w sid eid He) in Hsteps.
  split; [exact Hsteps|].
  assert (Hrep : exists rep, fst (handler net cfg request w) = Ok rep).
  { rewrite Hsteps.
    destruct (resolveUserId net cfg _) as [[userId|e] w2]; [|cbn; eauto].
    destruct (resolveUserName net cfg userId w2) as [[name|e] w3];
      [|cbn; eauto].
    destruct (postMessage net cfg name w3) as [[a|e] w4]; cbn; eauto. }
  destruct Hrep as (rep & Hrep).
  destruct (handler net cfg request w) as [r w'] eqn:Hrun.
  cbn [fst snd] in *. subst r.
  destruct (replied_run_is_in_order net cfg request w sid eid rep w' He Hrun)
    as (new & Ht & [(-> & H)|(e & -> & H)]).
  - exists new. split; [exact Ht|]. left. split; [reflexivity | exact H].
  - exists new. split; [exact Ht|]. right. exists e.
    split; [reflexivity | exact H].
Qed.

(** C7, as stated, fails in one clause: the body of the 500 is not a text
    made from the error.  On the sample space with the Slack webhook down,
    what is handed to [send] is the error object axios rejected with. *)
Lemma replied_body_is_the_error_object :
  fst (handler (sample_api sample_users false) sample_cfg
         (notify saved_body "entry.save") initial_world)
  = Ok (Reply 500 (ErrorBody (AxiosError "Network Error"))) /\
  ~ exists text,
      fst (handler (sample_api sample_users false) sample_cfg
             (notify saved_body "entry.save") initial_world)
      = Ok (Reply 500 (Plain text)).
Proof.
  split; [reflexivity|]. intros (text & H). vm_compute in H. discriminate.
Qed.

Lemma failing_step_is_replied_and_logged_witness :
  let net := sample_api sample_users false in
  let request := notify saved_body "entry.save" in
  let w := snd (serve net sample_cfg [notify asset_body "asset.publish"]
                  initial_world) in
  let w1 := prepared request "S1" "E1" w in
  handler net sample_cfg request w =
    match resolveUserId net sample_cfg w1 with
    | (Throw e, w2) => (Ok (Reply 500 (ErrorBody e)), logged w2 e)
    | (Ok userId, w2) =>
        match resolveUserName net sample_cfg userId w2 with
        | (Throw e, w3) => (Ok (Reply 500 (ErrorBody e)), logged w3 e)
        | (Ok displayName, w3) =>
            match postMessage net sample_cfg displayName w3 with
            | (Throw e, w4) => (Ok (Reply 500 (ErrorBody e)), logged w4 e)
            | (Ok _, w4) =>
                (Ok (Reply 200 (Plain "Slack post successful!")), w4)
            end
        end
    end
  /\
  exists new,
    traffic (snd (handler net sample_cfg request w))
      = (traffic w ++ new)%list /\
    ((fst (handler net sample_cfg request w)
        = Ok (Reply 200 (Plain "Slack post successful!")) /\
      console (snd (handler net sample_cfg request w)) = console w /\
      deliveries new = 1 /\
      forallb succeeded new = true)
     \/
     (exists e,
        fst (handler net sample_cfg request w)
          = Ok (Reply 500 (ErrorBody e)) /\
        console (snd (handler net sample_cfg request w))
          = (console w ++ [e])%list /\
        deliveries new = 0 /\
        orderly (Throw e : result reply) new)).
Proof.
  apply (failing_step_is_replied_and_logged
           (sample_api sample_users false) sample_cfg
           [notify asset_body "asset.publish"]
           (notify saved_body "entry.save") "S1" "E1").
  - split; reflexivity.
  - reflexivity.
Defined.

(** The witness above takes the branch of the failed delivery. *)
Example failed_delivery_on_sample_space :
  observe (handler (sample_api sample_users false) sample_cfg
             (notify saved_body "entry.save") initial_world)
  = (Ok (Reply 500 (ErrorBody (AxiosError "Network Error"))),
     [(GET "https://api.contentful.com/spaces/S1/users/" "Bearer tok",
       Received sample_users);
      (POST (Str "https://hooks.slack.com/services/T/B/X")
            (composed (notify saved_body "entry.save") "S1" "E1"
                      "Ada Lovelace" sample_fields),
       Failed "Network Error")],
     [AxiosError "Network Error"]).
Proof. vm_compute; reflexivity. Qed.
